(** * Order fraud protection: a shallow embedding

    The fraud-protection module of the API server (under
    [server/lib/security]) screens an incoming order against historical
    order statistics.  It is embedded here function by function:

    - the four statistics queries ([getUserStats], [getEmailStats],
      [getIpStats], [getCreditCardStats]) over a relational model of the
      [Orders], [PaymentMethods] and [Users] tables;
    - the threshold evaluator [makeStatLimitChecker];
    - the gate [validateStat] with its pre-check, failure handler and
      enforcement flag;
    - the four checks and the entry point [orderFraudProtection].

    JavaScript numbers are modelled as rationals ([Q]); the rounding of IEEE
    doubles is outside the model.  Asynchronous code is modelled in a state
    and error monad over a [World] that holds the suspended-asset store and a
    trace of the observable events (statistics queries, store accesses, log
    lines).  A promise is modelled by the outcome it settles to.

    The module [Loaders] embeds the batch functions of
    [server/graphql/loaders/index.js] that arrange the rows of their query
    themselves: [Collective.host], [Collective.stats.activeRecurringContributions],
    [Tier.availableQuantity], [Tier.contributorsStats],
    [Transaction.directDonationsFromTo] and
    [Transaction.totalAmountDonatedFromTo]. *)

From Stdlib Require Import Ascii String QArith Qround Lqa.
From stdpp Require Import gmap strings list pretty.

Open Scope Z_scope.

(** ** JavaScript strings *)

Definition is_upper (c : ascii) : bool :=
  (65 <=? nat_of_ascii c)%nat && (nat_of_ascii c <=? 90)%nat.

Definition lower_ascii (c : ascii) : ascii :=
  if is_upper c then ascii_of_nat (nat_of_ascii c + 32) else c.

(** lodash [toLower] (and SQL [LOWER]) on the ASCII letters; other bytes are
    left as they are. *)
Fixpoint toLower (s : string) : string :=
  match s with
  | EmptyString => EmptyString
  | String c rest => String (lower_ascii c) (toLower rest)
  end.

(** [Array.prototype.join] on an array of strings. *)
Definition join (sep : string) (xs : list string) : string := String.concat sep xs.

(** Truthiness of a possibly absent string: [undefined], [null] and the empty
    string are falsy. *)
Definition truthy (s : option string) : bool :=
  match s with
  | Some EmptyString => false
  | Some _ => true
  | None => false
  end.

(** ** Data model *)

Inductive AssetType := USER | CREDIT_CARD | IP | EMAIL_ADDRESS.

Global Instance AssetType_eq_dec : EqDecision AssetType.
Proof. solve_decision. Defined.

Definition AssetType_to_nat (t : AssetType) : nat :=
  match t with USER => 0 | CREDIT_CARD => 1 | IP => 2 | EMAIL_ADDRESS => 3 end%nat.

Definition AssetType_of_nat (n : nat) : option AssetType :=
  match n with
  | 0 => Some USER | 1 => Some CREDIT_CARD | 2 => Some IP | 3 => Some EMAIL_ADDRESS
  | _ => None
  end%nat.

Global Instance AssetType_countable : Countable AssetType.
Proof.
  apply (inj_countable AssetType_to_nat AssetType_of_nat).
  intros []; reflexivity.
Defined.

Record AssetParams := { type : AssetType; fingerprint : string }.

Global Instance AssetParams_eq_dec : EqDecision AssetParams.
Proof. solve_decision. Defined.

(** The key of a suspension record: (assetType, fingerprint). *)
Definition asset_key (a : AssetParams) : AssetType * string := (type a, fingerprint a).

Record User := { id : Z }.

Global Instance User_eq_dec : EqDecision User.
Proof. solve_decision. Defined.

(** [creditCardInfo] of an order's payment method, at its declared type: the
    numbers are integers, and an optional property is [None] when the key is
    absent from the object and a string otherwise. *)
Record CreditCardInfo := {
  expYear : Z;
  expMonth : Z;
  brand : option string;
  cc_fingerprint : option string;
  funding : option string;
  country : option string
}.

Global Instance CreditCardInfo_eq_dec : EqDecision CreditCardInfo.
Proof. solve_decision. Defined.

Record PaymentMethod := {
  pm_type : string;
  name : string;
  creditCardInfo : option CreditCardInfo
}.

Record GuestInfo := { email : option string }.

Record Order := {
  guestInfo : option GuestInfo;
  paymentMethod : option PaymentMethod
}.

Record Request := { remoteUser : option User; ip : option string }.

(** The values that travel in the [args] array of a statistics function. *)
Inductive jsval :=
  | VUndefined
  | VNull
  | VString (s : string)
  | VUser (user : User)
  | VCard (name : string) (info : CreditCardInfo).

Global Instance jsval_eq_dec : EqDecision jsval.
Proof. solve_decision. Defined.

Record FraudStats := { errorRate : Q; numberOfOrders : Q; paymentMethodRate : Q }.

(** One rule of a limit list, [[interval, ...limits]] after [JSON.parse]; a
    JSON [null] interval is [None]. *)
Record LimitParams := { interval : option string; limits : list Q }.

Inductive Error :=
  | Error_ (message : string)
  | ValidationFailed (message : string) (args : list jsval) (limitParams : list LimitParams)
  | SuspendedError (asset : AssetParams)
  | OtherError (name message : string).

(** A settled promise, or the completion of an awaited computation. *)
Inductive Outcome (A : Type) :=
  | Resolved (a : A)
  | Rejected (e : Error).
Arguments Resolved {A} a.
Arguments Rejected {A} e.

Abbreviation Promise := Outcome.

Inductive Event :=
  | StatQuery (args : list jsval)
  | StoreLookup (asset : AssetParams)
  | StoreCreate (asset : option AssetParams) (reason : string)
  | LogWarn (message : string)
  | LogError (e : Error).

(** The collaborators' state: the suspended-asset store (reason by key), a
    fault that makes store writes fail, and the trace of events so far, in
    chronological order. *)
Record World := {
  suspended : gmap (AssetType * string) string;
  write_fault : option Error;
  trace : list Event
}.

Definition emits (evs : list Event) (w : World) : World :=
  {| suspended := suspended w; write_fault := write_fault w; trace := trace w ++ evs |}.

Definition emit (ev : Event) (w : World) : World := emits [ev] w.

Definition store_insert (a : AssetParams) (reason : string) (w : World) : World :=
  {| suspended := <[asset_key a := reason]> (suspended w);
     write_fault := write_fault w;
     trace := trace w |}.

(** ** The monad of asynchronous computations *)

Definition M (A : Type) : Type := World -> Outcome A * World.

Definition ret {A} (a : A) : M A := fun w => (Resolved a, w).

Definition bind {A B} (m : M A) (k : A -> M B) : M B :=
  fun w =>
    match m w with
    | (Resolved a, w') => k a w'
    | (Rejected e, w') => (Rejected e, w')
    end.

Definition throw {A} (e : Error) : M A := fun w => (Rejected e, w).

Definition try_catch {A} (m : M A) (handler : Error -> M A) : M A :=
  fun w =>
    match m w with
    | (Resolved a, w') => (Resolved a, w')
    | (Rejected e, w') => handler e w'
    end.

Definition log (ev : Event) : M unit := fun w => (Resolved tt, emit ev w).

(** [await p] for a promise that has settled. *)
Definition await {A} (p : Promise A) : M A := fun w => (p, w).

(** Starting an asynchronous call yields its promise; a rejection is carried
    by the promise, not thrown at the caller. *)
Definition start {A} (m : M A) : M (Promise A) :=
  fun w => let (o, w') := m w in (Resolved o, w').

Declare Scope async_scope.
Delimit Scope async_scope with async.
Notation "x <- m ;; k" := (bind m (fun x => k))
  (at level 100, m at next level, right associativity) : async_scope.
Notation "m ;; k" := (bind m (fun _ => k))
  (at level 100, right associativity) : async_scope.
Open Scope async_scope.

Definition message (e : Error) : string :=
  match e with
  | Error_ m => m
  | ValidationFailed m _ _ => m
  | SuspendedError a => "Asset " +:+ fingerprint a +:+ " is suspended"
  | OtherError _ m => m
  end.

Definition logger_warn (msg : string) : M unit := log (LogWarn msg).
Definition logger_error (e : Error) : M unit := log (LogError e).

(** ** The relational model behind the statistics queries

    A column that may be NULL is an [option]; a JSON path ([data->>'key'])
    that is missing is NULL as well. *)

Record OrderRow := {
  o_CreatedByUserId : option Z;
  o_PaymentMethodId : option Z;
  o_status : option string;
  o_deletedAt : option Z;
  o_createdAt : Z;
  o_reqIp : option string
}.

Record PaymentMethodRow := {
  p_id : Z;
  p_type : option string;
  p_name : option string;
  p_expYear : option string;
  p_expMonth : option string;
  p_country : option string
}.

Record UserRow := { u_id : Z; u_email : option string }.

Record Database := {
  Orders : list OrderRow;
  PaymentMethods : list PaymentMethodRow;
  Users : list UserRow
}.

Module Sql.

(** [l LEFT JOIN r ON on]: every left row survives, padded with NULLs when
    no right row matches. *)
Definition LEFT_JOIN {A B} (on : A -> B -> bool) (l : list A) (r : list B)
  : list (A * option B) :=
  flat_map (fun a =>
    match List.filter (on a) r with
    | [] => [(a, None)]
    | matches => List.map (fun b => (a, Some b)) matches
    end) l.

(** [col = v] is TRUE only when the column is not NULL and equal to [v]. *)
Definition eq_col {A} `{EqDecision A} (col : option A) (v : A) : bool :=
  match col with
  | Some x => bool_decide (x = v)
  | None => false
  end.

Definition IS_NULL {A} (col : option A) : bool :=
  match col with Some _ => false | None => true end.

Definition COUNT {A} (rows : list A) : Z := Z.of_nat (length rows).

Definition SUM (xs : list Q) : Q := fold_right Qplus 0%Q xs.

(** [AVG] of no rows is NULL. *)
Definition AVG (xs : list Q) : option Q :=
  match xs with
  | [] => None
  | _ => Some (SUM xs / inject_Z (COUNT xs))%Q
  end.

Definition COALESCE (x : option Q) (dflt : Q) : Q :=
  match x with Some v => v | None => dflt end.

Definition NULLIF (a b : Z) : option Z := if a =? b then None else Some a.

(** Division propagates a NULL divisor. *)
Definition div (x : Q) (y : option Z) : option Q :=
  match y with Some d => Some (x / inject_Z d)%Q | None => None end.

(** [CONCAT] skips NULL arguments, so it is never NULL. *)
Definition CONCAT (a b : option string) : string :=
  default "" a +:+ default "" b.

Definition COUNT_DISTINCT (xs : list string) : Z := Z.of_nat (length (remove_dups xs)).

(** [ROUND(x, digits)] on numerics: half away from zero. *)
Definition ROUND (x : Q) (digits : nat) : Q :=
  let scale := inject_Z (10 ^ Z.of_nat digits) in
  let scaled := (x * scale)%Q in
  let n := if Qle_bool 0 scaled then Qfloor (scaled + (1 # 2))%Q
           else - Qfloor (- scaled + (1 # 2))%Q in
  (inject_Z n / scale)%Q.

End Sql.

(** Modelled from the spec: [ifStr] of [server/lib/utils], which adds the
    interval condition to the WHERE clause when an interval is given. *)
Definition ifStr {A} (cond : bool) (clause : A -> bool) : A -> bool :=
  if cond then clause else fun _ => true.

(** [sequelize.query] with [plain: true] yields the first row.  With no row
    it yields [null], on which the caller's property access throws. *)
Definition plain (rows : list FraudStats) : Promise FraudStats :=
  match rows with
  | row :: _ => Resolved row
  | [] => Rejected (OtherError "TypeError" "Cannot read properties of null")
  end.

(** The positional parameter [interval] of a statistics function. *)
Definition arg_interval (v : option jsval) : option string :=
  match v with
  | Some (VString s) => Some s
  | _ => None
  end.

Definition JoinedRow : Type := OrderRow * option PaymentMethodRow.

Definition pm_col {A} (col : PaymentMethodRow -> option A) (r : JoinedRow) : option A :=
  r.2 ≫= col.

(** [BASE_STATS_QUERY]: an aggregate without GROUP BY, hence exactly one
    row whatever the matching rows are. *)
Definition BASE_STATS_QUERY (rows : list JoinedRow) : list FraudStats :=
  [ {| errorRate :=
         Sql.ROUND
           (Sql.COALESCE
              (Sql.AVG (List.map (fun r => if Sql.eq_col (o_status r.1) "ERROR"
                                           then 1%Q else 0%Q) rows))
              0) 5;
       numberOfOrders := inject_Z (Sql.COUNT rows);
       paymentMethodRate :=
         Sql.COALESCE
           (Sql.div
              (inject_Z (Sql.COUNT_DISTINCT
                 (List.map (fun r => Sql.CONCAT (pm_col p_name r) (pm_col p_expYear r)) rows)))
              (Sql.NULLIF (Sql.COUNT rows) 0))
           0 |} ].

Section Statistics.

(** The database the queries run against, and the engine's clock,
    interval arithmetic and LIKE matching ([LIKE value pattern]). *)
Context (db : Database) (NOW : Z) (INTERVAL : string -> Z)
        (LIKE : string -> string -> bool).

Definition like_col (col : option string) (pattern : string) : bool :=
  match col with Some v => LIKE v pattern | None => false end.

(** [FROM "Orders" o LEFT JOIN "PaymentMethods" pm ON pm."id" = o."PaymentMethodId"] *)
Definition orders_pm : list JoinedRow :=
  Sql.LEFT_JOIN (fun o pm => Sql.eq_col (o_PaymentMethodId o) (p_id pm))
                (Orders db) (PaymentMethods db).

(** [AND o."createdAt" >= NOW() - INTERVAL :interval], when an interval is given *)
Definition interval_clause (interval : option string) : JoinedRow -> bool :=
  ifStr (truthy interval)
        (fun r => NOW - INTERVAL (default "" interval) <=? o_createdAt r.1).

Definition user_rows (user : User) (interval : option string) : list JoinedRow :=
  List.filter (fun r =>
      Sql.eq_col (o_CreatedByUserId r.1) (id user)
      && Sql.IS_NULL (o_deletedAt r.1)
      && Sql.eq_col (pm_col p_type r) "creditcard"
      && interval_clause interval r)
    orders_pm.

Definition getUserStats (user : User) (interval : option string) : Promise FraudStats :=
  plain (BASE_STATS_QUERY (user_rows user interval)).

Definition email_rows (email : string) (interval : option string) : list JoinedRow :=
  List.map fst
    (List.filter (fun r : JoinedRow * option UserRow =>
         like_col (toLower <$> (r.2 ≫= u_email)) (toLower email)
         && Sql.IS_NULL (o_deletedAt r.1.1)
         && Sql.eq_col (pm_col p_type r.1) "creditcard"
         && interval_clause interval r.1)
       (Sql.LEFT_JOIN (fun r u => Sql.eq_col (o_CreatedByUserId r.1) (u_id u))
                      orders_pm (Users db))).

Definition getEmailStats (email : string) (interval : option string) : Promise FraudStats :=
  plain (BASE_STATS_QUERY (email_rows email interval)).

Definition ip_rows (ip : string) (interval : option string) : list JoinedRow :=
  List.filter (fun r =>
      like_col (o_reqIp r.1) ip
      && Sql.IS_NULL (o_deletedAt r.1)
      && Sql.eq_col (pm_col p_type r) "creditcard"
      && interval_clause interval r)
    orders_pm.

Definition getIpStats (ip : string) (interval : option string) : Promise FraudStats :=
  plain (BASE_STATS_QUERY (ip_rows ip interval)).

(** [getCreditCardStats] destructures [{ name, expYear, expMonth, country }]
    from its first argument; a missing [country] compares as NULL. *)
Definition card_rows (name : string) (info : CreditCardInfo) (interval : option string)
  : list JoinedRow :=
  List.filter (fun r =>
      Sql.eq_col (pm_col p_type r) "creditcard"
      && Sql.IS_NULL (o_deletedAt r.1)
      && Sql.eq_col (pm_col p_name r) name
      && Sql.eq_col (pm_col p_expYear r) (pretty (expYear info))
      && Sql.eq_col (pm_col p_expMonth r) (pretty (expMonth info))
      && match country info with
         | Some c => Sql.eq_col (pm_col p_country r) c
         | None => false
         end
      && interval_clause interval r)
    orders_pm.

Definition getCreditCardStats (name : string) (info : CreditCardInfo)
    (interval : option string) : Promise FraudStats :=
  plain (BASE_STATS_QUERY (card_rows name info interval)).

(** The statistics functions as [validateStat] calls them, [statFn(...args)]:
    the first array element is the subject, the second the interval, and
    further elements are ignored. *)
Definition StatFn : Type := list jsval -> Promise FraudStats.

(** A subject of the wrong kind makes the query fail. *)
Definition bad_subject : Error := OtherError "TypeError" "bad subject".

Definition spread_getUserStats : StatFn := fun args =>
  match args !! 0%nat with
  | Some (VUser user) => getUserStats user (arg_interval (args !! 1%nat))
  | _ => Rejected bad_subject
  end.

Definition spread_getEmailStats : StatFn := fun args =>
  match args !! 0%nat with
  | Some (VString email) => getEmailStats email (arg_interval (args !! 1%nat))
  | _ => Rejected bad_subject
  end.

Definition spread_getIpStats : StatFn := fun args =>
  match args !! 0%nat with
  | Some (VString ip) => getIpStats ip (arg_interval (args !! 1%nat))
  | _ => Rejected bad_subject
  end.

Definition spread_getCreditCardStats : StatFn := fun args =>
  match args !! 0%nat with
  | Some (VCard name info) => getCreditCardStats name info (arg_interval (args !! 1%nat))
  | _ => Rejected bad_subject
  end.

End Statistics.

(** ** The suspended-asset store *)

(** Modelled from the spec: [SuspendedAsset.assertAssetIsNotSuspended] of
    [server/models/SuspendedAsset] -- the store's existence check
    [exists(type, fingerprint)], rejecting when the asset is suspended. *)
Definition assertAssetIsNotSuspended (asset : AssetParams) : M unit :=
  log (StoreLookup asset) ;;
  fun w =>
    match suspended w !! asset_key asset with
    | Some _ => (Rejected (SuspendedError asset), w)
    | None => (Resolved tt, w)
    end.

(** Modelled from the spec: [SuspendedAsset.create] of
    [server/models/SuspendedAsset] -- [create(type, fingerprint, reason)],
    idempotent on the key (type, fingerprint): writing a key again keeps a
    single record.  The write fails when the store is faulty, and a record
    without a key cannot be stored. *)
Definition SuspendedAsset_create (asset : option AssetParams) (reason : string) : M unit :=
  log (StoreCreate asset reason) ;;
  fun w =>
    match write_fault w with
    | Some e => (Rejected e, w)
    | None =>
        match asset with
        | Some a => (Resolved tt, store_insert a reason w)
        | None => (Rejected (OtherError "ValidationError" "type and fingerprint are required"), w)
        end
    end.

(** ** Promises and arrays *)

Fixpoint rejections {A} (ps : list (Promise A)) : list Error :=
  match ps with
  | [] => []
  | Resolved _ :: rest => rejections rest
  | Rejected e :: rest => e :: rejections rest
  end.

Fixpoint fulfilled {A} (ps : list (Promise A)) : list A :=
  match ps with
  | [] => []
  | Resolved a :: rest => a :: fulfilled rest
  | Rejected _ :: rest => fulfilled rest
  end.

(** Calling a list of asynchronous functions one after the other: each call
    returns a promise, and a rejected one does not stop the next call. *)
Fixpoint start_all {A} (calls : list (M A)) : M (list (Promise A)) :=
  match calls with
  | [] => ret []
  | call :: rest =>
      p <- start call ;;
      ps <- start_all rest ;;
      ret (p :: ps)
  end.

(** [Array.prototype.every] with its (element, index) callback. *)
Fixpoint every_from {A} (f : A -> nat -> bool) (index : nat) (xs : list A) : bool :=
  match xs with
  | [] => true
  | x :: rest => f x index && every_from f (S index) rest
  end.

Definition every {A} (f : A -> nat -> bool) (xs : list A) : bool := every_from f 0 xs.

(** [limit <= statArray[index]]; past the end of the array the right operand
    is [undefined] and the comparison is false. *)
Definition le_element (limit : Q) (element : option Q) : bool :=
  match element with
  | Some v => Qle_bool limit v
  | None => false
  end.

Definition statArray (stat : FraudStats) : list Q :=
  [numberOfOrders stat; errorRate stat; paymentMethodRate stat].

(** [limits.every((limit, index) => limit <= statArray[index])] *)
Definition fail (limits : list Q) (stat : FraudStats) : bool :=
  every (fun limit index => le_element limit (statArray stat !! index)) limits.

(** The interval as it is pushed on the [args] array. *)
Definition interval_val (interval : option string) : jsval :=
  match interval with
  | Some s => VString s
  | None => VNull
  end.

(** The options of [validateStat], at their declared types: [onFail] and
    [preCheck] are asynchronous functions, so a failure of theirs is a
    rejected promise. *)
Record ValidateStatOptions := {
  onFail : option (Error -> M unit);
  preCheck : option (M unit);
  assetParams : option AssetParams
}.

(** A check that [orderFraudProtection] has put on its [checks] array. *)
Inductive Check :=
  | CheckIP (ip : string)
  | CheckCreditCard (paymentMethod : PaymentMethod)
  | CheckUser (user : User)
  | CheckEmail (email : string).

(** [Object.values(pick(creditCardInfo, ['brand', 'expMonth', 'expYear', 'funding']))]:
    the values of the keys that are present, in the order of the picked keys. *)
Definition picked_values (info : CreditCardInfo) : list string :=
  omap (fun v : option string => v)
       [brand info; Some (pretty (expMonth info)); Some (pretty (expYear info)); funding info].

(** The fingerprint of a card: [creditCardInfo.fingerprint || [name, ...].join('-')] *)
Definition card_fingerprint (name : string) (info : CreditCardInfo) : string :=
  if truthy (cc_fingerprint info) then default "" (cc_fingerprint info)
  else join "-" (name :: picked_values info).

(** The fingerprint of a guest email. *)
Definition email_fingerprint (email : string) : string := toLower email.

(** Two characters that are the same letter in either case. *)
Definition same_letter (c d : ascii) : bool :=
  Ascii.eqb c d
  || (is_upper c && Ascii.eqb (lower_ascii c) d)
  || (is_upper d && Ascii.eqb (lower_ascii d) c).

(** Two strings that differ only in the case of their letters. *)
Fixpoint differ_only_in_case (s t : string) : bool :=
  match s, t with
  | EmptyString, EmptyString => true
  | String c s', String d t' => same_letter c d && differ_only_in_case s' t'
  | _, _ => false
  end.

(** The five fields a derived card fingerprint is made of. *)
Definition fingerprint_fields (name : string) (info : CreditCardInfo)
  : string * option string * Z * Z * option string :=
  (name, brand info, expMonth info, expYear info, funding info).

(** Two cards that agree on all the fingerprint fields but at most one. *)
Definition differ_in_at_most_one_field (name1 : string) (info1 : CreditCardInfo)
    (name2 : string) (info2 : CreditCardInfo) : Prop :=
  (brand info1 = brand info2 /\ expMonth info1 = expMonth info2 /\
   expYear info1 = expYear info2 /\ funding info1 = funding info2) \/
  (name1 = name2 /\ expMonth info1 = expMonth info2 /\
   expYear info1 = expYear info2 /\ funding info1 = funding info2) \/
  (name1 = name2 /\ brand info1 = brand info2 /\
   expYear info1 = expYear info2 /\ funding info1 = funding info2) \/
  (name1 = name2 /\ brand info1 = brand info2 /\
   expMonth info1 = expMonth info2 /\ funding info1 = funding info2) \/
  (name1 = name2 /\ brand info1 = brand info2 /\
   expMonth info1 = expMonth info2 /\ expYear info1 = expYear info2).

(** * The GraphQL loaders

    The batch functions of [server/graphql/loaders/index.js] whose result
    mapping is written out in the file: each receives the keys of a batch,
    runs one query and arranges the rows by key, one result per key and in
    key order.  The rows are what the query returns; a JS object used as a
    dictionary is a [gmap] on its property names, and a number used as a
    property name is its decimal string.  Identifiers, counts and amounts
    are integers. *)
Module Loaders.

(** [obj[id]] for a number [id]: the property name is [String(id)]. *)
Definition prop (id : Z) : string := pretty id.

(** ** [Collective.host] *)

Section Host.

Context {Collective : Type}.

(** A row of [Collective.findAll] with the [host] association included;
    [host] is [null] for a collective without host. *)
Record HostResult := { hr_id : Z; hr_host : option Collective }.

(** [for (const result of results) { resultsById[result.id] = result.host; }] *)
Definition resultsById (results : list HostResult) : gmap string (option Collective) :=
  foldl (fun obj result => <[prop (hr_id result) := hr_host result]> obj) ∅ results.

(** [ids.map(id => resultsById[id] || null)]: a host is an object, hence
    truthy; a missing entry and a [null] host both give [null]. *)
Definition host (ids : list Z) (results : list HostResult) : list (option Collective) :=
  (fun id => default None (resultsById results !! prop id)) <$> ids.

End Host.

Arguments HostResult : clear implicits.

(** ** [Tier.contributorsStats] *)

(** A raw row of the grouped [Member] query: [{ TierId, type, count }]. *)
Record MemberCount := { mc_TierId : Z; mc_type : string; mc_count : Z }.

(** [getDefaultStats]: the statistics object of a tier. *)
Definition getDefaultStats (TierId : Z) : gmap string Z :=
  {[ "id" := TierId; "all" := 0; "USER" := 0; "ORGANIZATION" := 0; "COLLECTIVE" := 0 ]}.

(** The body of [results.forEach(({ TierId, type, count }) => ...)]: the
    entry of the tier is created on first use, then [type] is set and
    [all] is increased, in this order. *)
Definition add_count (resultsMap : gmap string (gmap string Z)) (row : MemberCount)
  : gmap string (gmap string Z) :=
  let stats := default (getDefaultStats (mc_TierId row))
                       (resultsMap !! prop (mc_TierId row)) in
  let stats := <[mc_type row := mc_count row]> stats in
  let stats := <["all" := default 0 (stats !! "all") + mc_count row]> stats in
  <[prop (mc_TierId row) := stats]> resultsMap.

Definition contributorsStats (tiersIds : list Z) (results : list MemberCount)
  : list (gmap string Z) :=
  let resultsMap := foldl add_count ∅ results in
  (fun tierId => default (getDefaultStats tierId) (resultsMap !! prop tierId)) <$> tiersIds.

(** ** [Transaction.directDonationsFromTo] and [Transaction.totalAmountDonatedFromTo] *)

Record DonationKey := { FromCollectiveId : Z; CollectiveId : Z }.

(** [`${FromCollectiveId}-${CollectiveId}`] *)
Definition pair_key (from to : Z) : string := pretty from +:+ "-" +:+ pretty to.

(** A row of the grouped [Transaction] query; [SUM(amount)] is [null] when
    every amount of the group is. *)
Record DonationRow := {
  d_FromCollectiveId : Z;
  d_CollectiveId : Z;
  d_totalAmount : option Z
}.

(** [resultsByKey[key] || 0]: a missing entry, [null] and [0] give [0]. *)
Definition directDonationsFromTo (keys : list DonationKey) (results : list DonationRow)
  : list Z :=
  let resultsByKey : gmap string (option Z) :=
    foldl (fun obj r => <[pair_key (d_FromCollectiveId r) (d_CollectiveId r)
                          := d_totalAmount r]> obj) ∅ results in
  (fun key => default 0 (default None
                (resultsByKey !! pair_key (FromCollectiveId key) (CollectiveId key))))
    <$> keys.

(** A row of the query grouped by giver, gift card emitter and receiver. *)
Record GiftCardRow := {
  g_FromCollectiveId : Z;
  g_UsingGiftCardFromCollectiveId : option Z;
  g_CollectiveId : Z;
  g_totalAmount : Z
}.

(** [const donated = resultsByKey[key] || 0; resultsByKey[key] = donated + totalAmount] *)
Definition credit (key : string) (totalAmount : Z) (resultsByKey : gmap string Z)
  : gmap string Z :=
  <[key := default 0 (resultsByKey !! key) + totalAmount]> resultsByKey.

(** The body of the [forEach]: the emitter of the gift card, when there is
    one ([null] and [0] are falsy), then the giver. *)
Definition add_donation (resultsByKey : gmap string Z) (r : GiftCardRow) : gmap string Z :=
  let credited :=
    match g_UsingGiftCardFromCollectiveId r with
    | Some emitter =>
        if bool_decide (emitter = 0) then resultsByKey
        else credit (pair_key emitter (g_CollectiveId r)) (g_totalAmount r) resultsByKey
    | None => resultsByKey
    end in
  credit (pair_key (g_FromCollectiveId r) (g_CollectiveId r)) (g_totalAmount r) credited.

Definition totalAmountDonatedFromTo (keys : list DonationKey) (results : list GiftCardRow)
  : list Z :=
  let resultsByKey := foldl add_donation ∅ results in
  (fun key => default 0 (resultsByKey !! pair_key (FromCollectiveId key) (CollectiveId key)))
    <$> keys.

(** ** [Collective.stats.activeRecurringContributions] *)

(** A raw row of the grouped [Order] query: the total of the active
    recurring contributions to a collective in one currency and interval. *)
Record RecurringRow := {
  rc_CollectiveId : Z;
  rc_currency : string;
  rc_interval : option string;
  rc_total : Z
}.

Record RecurringStats := {
  rs_CollectiveId : Z;
  monthly : Q;
  yearly : Q;
  rs_currency : option string
}.

(** [groupBy(rows, 'CollectiveId')] of lodash: the rows of each collective,
    in the order of the rows. *)
Definition groupBy (rows : list RecurringRow) : gmap string (list RecurringRow) :=
  foldl (fun groups row =>
           <[prop (rc_CollectiveId row)
             := default [] (groups !! prop (rc_CollectiveId row)) ++ [row]]> groups)
        ∅ rows.

Section ActiveRecurringContributions.

(** [getFxRate] of [server/lib/currency], as the promise it returns for a
    pair of currencies, and the scheduler that picks the rejection to
    settle first among those of the mapped calls. *)
Context (getFxRate : string -> string -> Promise Q) (race : list Error -> nat).

(** One turn of the [for] loop: the first currency met becomes the currency
    of the statistics, the total is converted to it and added to [monthly]
    for the interval ['month'] and to [yearly] for any other. *)
Definition add_result (stats : RecurringStats) (result : RecurringRow)
  : Promise RecurringStats :=
  let currency := if truthy (rs_currency stats) then rs_currency stats
                  else Some (rc_currency result) in
  match getFxRate (rc_currency result) (default "" currency) with
  | Resolved fxRate =>
      Resolved
        (if bool_decide (rc_interval result = Some "month")
         then {| rs_CollectiveId := rs_CollectiveId stats;
                 monthly := monthly stats + inject_Z (rc_total result) * fxRate;
                 yearly := yearly stats;
                 rs_currency := currency |}
         else {| rs_CollectiveId := rs_CollectiveId stats;
                 monthly := monthly stats;
                 yearly := yearly stats + inject_Z (rc_total result) * fxRate;
                 rs_currency := currency |})
  | Rejected e => Rejected e
  end.

Fixpoint add_results (stats : RecurringStats) (results : list RecurringRow)
  : Promise RecurringStats :=
  match results with
  | [] => Resolved stats
  | result :: rest =>
      match add_result stats result with
      | Resolved stats' => add_results stats' rest
      | Rejected e => Rejected e
      end
  end.

(** The mapper of [Promise.map]. *)
Definition collective_stats (results : gmap string (list RecurringRow)) (collectiveId : Z)
  : Promise RecurringStats :=
  add_results {| rs_CollectiveId := collectiveId; monthly := 0; yearly := 0;
                 rs_currency := None |}
              (default [] (results !! prop collectiveId)).

(** [Promise.map(ids, mapper)] of bluebird: all the statistics in the order
    of the ids, or the first rejection to settle. *)
Definition activeRecurringContributions (ids : list Z) (rows : list RecurringRow)
  : Promise (list RecurringStats) :=
  let promises := collective_stats (groupBy rows) <$> ids in
  match rejections promises with
  | [] => Resolved (fulfilled promises)
  | e :: es => Rejected (nth (race (e :: es) mod length (e :: es)) (e :: es) e)
  end.

End ActiveRecurringContributions.

(** ** [Tier.availableQuantity] *)

Record TierOrderRow := {
  to_TierId : option Z;
  to_processedAt : option Z;
  to_status : option string;
  to_quantity : option Z
}.

Section AvailableQuantity.

(** The statuses [[orderStatus.ERROR, orderStatus.CANCELLED,
    orderStatus.EXPIRED, orderStatus.REJECTED]] of the first replacement;
    the table ["Tiers"], from its primary key [id] to [maxQuantity]; the
    table ["Orders"]. *)
Context (excluded : list string) (Tiers : gmap Z (option Z))
        (TierOrders : list TierOrderRow).

(** [ON o."TierId" = t.id AND o."processedAt" IS NOT NULL AND o."status" NOT IN (?)] *)
Definition join_on (t : Z * Z) (o : TierOrderRow) : bool :=
  Sql.eq_col (to_TierId o) t.1
  && negb (Sql.IS_NULL (to_processedAt o))
  && match to_status o with
     | Some status => bool_decide (status ∉ excluded)
     | None => false
     end.

(** [SUM] skips NULLs and is NULL when nothing is left. *)
Definition SUM_Z (xs : list (option Z)) : option Z :=
  match omap (fun x => x) xs with
  | [] => None
  | values => Some (foldr Z.add 0 values)
  end.

(** The query: the tiers of the batch that have a [maxQuantity], each with
    [maxQuantity - COALESCE(SUM(o.quantity), 0)] over its joined orders.
    [GROUP BY t.id] on the primary key makes one group per tier. *)
Definition available_rows (tierIds : list Z) : list (Z * Z) :=
  omap (fun t : Z * option Z =>
          match t.2 with
          | Some maxQuantity =>
              if bool_decide (t.1 ∈ tierIds) then
                let group := Sql.LEFT_JOIN join_on [(t.1, maxQuantity)] TierOrders in
                Some (t.1, maxQuantity
                           - default 0 (SUM_Z ((fun r : (Z * Z) * option TierOrderRow =>
                                                  r.2 ≫= to_quantity) <$> group)))
              else None
          | None => None
          end)
       (map_to_list Tiers).

(** The result mapping: [results.find(({ id }) => id === tierId)], the
    available quantity when positive, [0] otherwise, and [null] for a tier
    without row. *)
Definition availableQuantity (tierIds : list Z) : list (option Z) :=
  let results := available_rows tierIds in
  (fun tierId =>
     match List.find (fun result : Z * Z => bool_decide (result.1 = tierId)) results with
     | Some result => Some (if bool_decide (0 < result.2) then result.2 else 0)
     | None => None
     end) <$> tierIds.

End AvailableQuantity.

End Loaders.

(** ** Sample data

    A small configuration and a few worlds on which the statements below are
    run. *)

Definition sample_stats : FraudStats :=
  {| errorRate := 0.5; numberOfOrders := 10; paymentMethodRate := 0.5 |}.

Definition quiet_stats : FraudStats :=
  {| errorRate := 0; numberOfOrders := 1; paymentMethodRate := 1 |}.

Definition rule_day : LimitParams :=
  {| interval := Some "1 day"; limits := [5; 0.3; 0.3]%Q |}.

Definition rule_month : LimitParams :=
  {| interval := Some "1 month"; limits := [20; 0.3; 0.3]%Q |}.

(** A rule that any statistics violate. *)
Definition rule_always : LimitParams := {| interval := None; limits := [0; 0; 0]%Q |}.

(** A reader of limit lists that knows three lists. *)
Definition sample_parse (s : string) : option (list LimitParams) :=
  if decide (s = "[]") then Some []
  else if decide (s = "always") then Some [rule_always]
  else Some [rule_day; rule_month].

Definition sample_toString (q : Q) : string :=
  pretty (Qnum q) +:+ "/" +:+ pretty (Zpos (Qden q)).

Definition sample_race (rejected : list Error) : nat := 0.

Definition sample_statFn : list jsval -> Promise FraudStats :=
  fun _ => Resolved sample_stats.

Definition quiet_statFn : list jsval -> Promise FraudStats :=
  fun _ => Resolved quiet_stats.

Definition sample_asset : AssetParams := {| type := IP; fingerprint := "10.0.0.1" |}.

Definition sample_args : list jsval := [VString "10.0.0.1"].

Definition default_options : ValidateStatOptions :=
  {| onFail := None; preCheck := None; assetParams := Some sample_asset |}.

Definition sample_handler (error : Error) : M unit := logger_warn "handled".

Definition failing_handler (error : Error) : M unit :=
  throw (OtherError "Error" "handler failed").

Definition custom_options (handler : Error -> M unit) : ValidateStatOptions :=
  {| onFail := Some handler; preCheck := None; assetParams := Some sample_asset |}.

(** Options with both asset parameters and a custom pre-check that passes. *)
Definition pre_checked_options : ValidateStatOptions :=
  {| onFail := None; preCheck := Some (ret tt); assetParams := Some sample_asset |}.

Definition empty_world : World :=
  {| suspended := ∅; write_fault := None; trace := [] |}.

Definition suspended_world : World :=
  {| suspended := {[ asset_key sample_asset := "suspended earlier" ]};
     write_fault := None; trace := [] |}.

Definition write_error : Error := OtherError "SequelizeConnectionError" "connection refused".

Definition faulty_world : World :=
  {| suspended := ∅; write_fault := Some write_error; trace := [] |}.

Definition empty_db : Database := {| Orders := []; PaymentMethods := []; Users := [] |}.

Definition sample_card : CreditCardInfo :=
  {| expYear := 2030; expMonth := 3; brand := Some "visa"; cc_fingerprint := None;
     funding := Some "credit"; country := Some "US" |}.

Definition sample_request : Request := {| remoteUser := None; ip := Some "10.0.0.1" |}.

Definition sample_order : Order :=
  {| guestInfo := Some {| email := Some "Test@Example.com" |}; paymentMethod := None |}.

(** A statistics query that the database refuses. *)
Definition query_error : Error :=
  OtherError "SequelizeDatabaseError" "invalid input syntax for type interval".

Definition failing_statFn : list jsval -> Promise FraudStats :=
  fun _ => Rejected query_error.

(** A reader of limit lists that cannot read any. *)
Definition unreadable_parse (s : string) : option (list LimitParams) := None.

(** A request and an order that carry no identity at all. *)
Definition anonymous_request : Request := {| remoteUser := None; ip := None |}.

Definition bare_order : Order := {| guestInfo := None; paymentMethod := None |}.

(** A few rows: a card, an order paid with it, an order that was deleted
    and the user who placed them. *)
Definition card_row : PaymentMethodRow :=
  {| p_id := 1; p_type := Some "creditcard"; p_name := Some "4242";
     p_expYear := Some "2030"; p_expMonth := Some "3"; p_country := Some "US" |}.

Definition paid_order : OrderRow :=
  {| o_CreatedByUserId := Some 7; o_PaymentMethodId := Some 1; o_status := Some "PAID";
     o_deletedAt := None; o_createdAt := 100; o_reqIp := Some "10.0.0.1" |}.

Definition deleted_order : OrderRow :=
  {| o_CreatedByUserId := Some 7; o_PaymentMethodId := Some 1; o_status := Some "ERROR";
     o_deletedAt := Some 50; o_createdAt := 40; o_reqIp := Some "10.0.0.1" |}.

Definition sample_user_row : UserRow := {| u_id := 7; u_email := Some "Test@Example.com" |}.

(** Rows for the loaders: two collectives of which one has a host, member
    counts of two tiers, donations, a gift card donation, a tier of ten
    with two orders of which one failed, and two recurring contributions. *)
Definition sample_host_rows : list (Loaders.HostResult string) :=
  [ {| Loaders.hr_id := 1; Loaders.hr_host := Some "opensource" |};
    {| Loaders.hr_id := 2; Loaders.hr_host := None |} ].

Definition sample_member_counts : list Loaders.MemberCount :=
  [ {| Loaders.mc_TierId := 1; Loaders.mc_type := "USER"; Loaders.mc_count := 3 |};
    {| Loaders.mc_TierId := 1; Loaders.mc_type := "ORGANIZATION"; Loaders.mc_count := 2 |};
    {| Loaders.mc_TierId := 2; Loaders.mc_type := "USER"; Loaders.mc_count := 5 |} ].

Definition sample_donations : list Loaders.DonationRow :=
  [ {| Loaders.d_FromCollectiveId := 1; Loaders.d_CollectiveId := 2;
       Loaders.d_totalAmount := Some 50 |};
    {| Loaders.d_FromCollectiveId := 12; Loaders.d_CollectiveId := 3;
       Loaders.d_totalAmount := Some 70 |} ].

Definition sample_excluded : list string := ["ERROR"; "CANCELLED"; "EXPIRED"; "REJECTED"].

Definition sample_tiers : gmap Z (option Z) := {[ 1 := Some 10; 2 := None ]}.

Definition sample_tier_orders : list Loaders.TierOrderRow :=
  [ {| Loaders.to_TierId := Some 1; Loaders.to_processedAt := Some 5;
       Loaders.to_status := Some "ACTIVE"; Loaders.to_quantity := Some 3 |};
    {| Loaders.to_TierId := Some 1; Loaders.to_processedAt := Some 6;
       Loaders.to_status := Some "ERROR"; Loaders.to_quantity := Some 4 |} ].

Definition sample_recurring : list Loaders.RecurringRow :=
  [ {| Loaders.rc_CollectiveId := 1; Loaders.rc_currency := "USD";
       Loaders.rc_interval := Some "month"; Loaders.rc_total := 100 |};
    {| Loaders.rc_CollectiveId := 1; Loaders.rc_currency := "USD";
       Loaders.rc_interval := Some "year"; Loaders.rc_total := 1200 |} ].

Definition sample_getFxRate (from to : string) : Promise Q := Resolved 1%Q.

Section Gate.

Set Default Proof Using "Type".

(** Process configuration: [config.fraud.enforceSuspendedAsset] and the
    limit lists [config.fraud.order.*], which are JSON strings. *)
Context (ENFORCE_SUSPENDED_ASSET : bool).
Context (config_fraud_order_user config_fraud_order_card
         config_fraud_order_ip config_fraud_order_email : string).

(** The runtime: [JSON.parse] at the type of a limit list ([None] when it
    throws), the conversion of a number to a string, and the scheduler,
    which picks among the rejections of a [Promise.all] the one that
    settles first. *)
Context (JSON_parse : string -> option (list LimitParams)).
Context (Number_toString : Q -> string).
Context (race : list Error -> nat).

Context (db : Database) (NOW : Z) (INTERVAL : string -> Z)
        (LIKE : string -> string -> bool).

(** [Promise.all]: fulfilled with all the values, or rejected with the
    first rejection to settle. *)
Definition Promise_all {A} (ps : list (Promise A)) : Promise (list A) :=
  match rejections ps with
  | [] => Resolved (fulfilled ps)
  | e :: es => Rejected (nth (race (e :: es) mod length (e :: es)) (e :: es) e)
  end.

Definition join_stat (stat : FraudStats) : string :=
  join "," (Number_toString <$> statArray stat).

Definition join_limitParams (limitParams : LimitParams) : string :=
  join "," (default "" (interval limitParams) :: (Number_toString <$> limits limitParams)).

(** The body of the checker after [await statFn(...args)]: how the promise
    of one rule settles.  (The [debug] line is not modelled.) *)
Definition settle (limitParams : LimitParams) (queried : Promise FraudStats)
  : Promise unit :=
  match queried with
  | Rejected e => Rejected e
  | Resolved stat =>
      if fail (limits limitParams) stat
      then Rejected (Error_ ("Stat " +:+ join_stat stat +:+ " above treshold "
                             +:+ join_limitParams limitParams))
      else Resolved tt
  end.

(** [makeStatLimitChecker(statFn, args)(limitParams)].  The closure shares
    the caller's [args] array: the array comes in as it is at the call and
    goes out with the interval pushed.  The query is issued before the
    first [await], so the calls of one [map] are made in rule order. *)
Definition makeStatLimitChecker (statFn : StatFn) (args : list jsval)
    (limitParams : LimitParams) : M (list jsval * Promise unit) :=
  let args := args ++ [interval_val (interval limitParams)] in
  log (StatQuery args) ;;
  ret (args, settle limitParams (statFn args)).

(** [limitParams.map(assertLimit)] with [assertLimit = makeStatLimitChecker(statFn, args)] *)
Fixpoint map_assertLimit (statFn : StatFn) (args : list jsval)
    (limitParams : list LimitParams) : M (list jsval * list (Promise unit)) :=
  match limitParams with
  | [] => ret (args, [])
  | rule :: rest =>
      r <- makeStatLimitChecker statFn args rule ;;
      rs <- map_assertLimit statFn r.1 rest ;;
      ret (rs.1, r.2 :: rs.2)
  end.

(** [options.onFail?.(error) || SuspendedAsset.create({...options.assetParams, reason})]:
    a handler returns a promise, which is truthy, so the default runs
    exactly when no handler is given. *)
Definition on_fail (options : ValidateStatOptions) (error : Error) : M unit :=
  match onFail options with
  | Some handler => handler error
  | None => SuspendedAsset_create (assetParams options) (message error)
  end.

(** [options.preCheck?.() || SuspendedAsset.assertAssetIsNotSuspended(options.assetParams)],
    under the guard [options.assetParams || options.preCheck]. *)
Definition pre_check (options : ValidateStatOptions) : M unit :=
  match preCheck options, assetParams options with
  | Some check, _ => check
  | None, Some asset => assertAssetIsNotSuspended asset
  | None, None => ret tt
  end.

(** The first statement of [validateStat]: the pre-check, guarded by the
    enforcement flag. *)
Definition entry (options : ValidateStatOptions) : M unit :=
  if ENFORCE_SUSPENDED_ASSET then pre_check options else ret tt.

(** [validateStat].  [JSON.parse] is outside the [try] block.  The [map]
    inside it only starts the checkers, which never throws: what the
    [catch] block receives is the rejection of [Promise.all].  The error it
    builds refers to the [args] array as it is after the pushes. *)
Definition validateStat (statFn : StatFn) (args : list jsval)
    (limitParamsString errorMessage : string) (options : ValidateStatOptions) : M unit :=
  entry options ;;
  limitParams <- match JSON_parse limitParamsString with
                 | Some parsed => ret parsed
                 | None => throw (OtherError "SyntaxError" "Unexpected token in JSON")
                 end ;;
  started <- map_assertLimit statFn args limitParams ;;
  try_catch
    (await (Promise_all started.2) ;; ret tt)
    (fun e =>
       let error := ValidationFailed (errorMessage +:+ ": " +:+ message e)
                                     started.1 limitParams in
       logger_warn (message error) ;;
       try_catch (on_fail options error) logger_error ;;
       if ENFORCE_SUSPENDED_ASSET then throw error else ret tt).

Definition checkUser (user : User) : M unit :=
  let assetParams := {| type := USER; fingerprint := pretty (id user) |} in
  validateStat (spread_getUserStats db NOW INTERVAL) [VUser user]
    config_fraud_order_user
    ("Fraud: User #" +:+ pretty (id user) +:+ " failed fraud protection")
    {| assetParams := Some assetParams;
       onFail := Some (fun error => SuspendedAsset_create (Some assetParams) (message error));
       preCheck := None |}.

Definition checkCreditCard (paymentMethod : PaymentMethod) : M unit :=
  match creditCardInfo paymentMethod with
  | None => throw (OtherError "TypeError" "Cannot read properties of undefined")
  | Some info =>
      let assetParams := {| type := CREDIT_CARD;
                            fingerprint := card_fingerprint (name paymentMethod) info |} in
      validateStat (spread_getCreditCardStats db NOW INTERVAL)
        [VCard (name paymentMethod) info]
        config_fraud_order_card
        ("Fraud: Credit Card " +:+ fingerprint assetParams +:+ " failed fraud protection")
        {| assetParams := Some assetParams; onFail := None; preCheck := None |}
  end.

Definition checkIP (ip : string) : M unit :=
  let assetParams := {| type := IP; fingerprint := ip |} in
  validateStat (spread_getIpStats db NOW INTERVAL LIKE) [VString ip]
    config_fraud_order_ip
    ("Fraud: IP " +:+ ip +:+ " failed fraud protection")
    {| assetParams := Some assetParams; onFail := None; preCheck := None |}.

Definition checkEmail (email : string) : M unit :=
  let assetParams := {| type := EMAIL_ADDRESS; fingerprint := email_fingerprint email |} in
  validateStat (spread_getEmailStats db NOW INTERVAL LIKE) [VString email]
    config_fraud_order_email
    ("Fraud: email " +:+ email +:+ " failed fraud protection")
    {| assetParams := Some assetParams; onFail := None; preCheck := None |}.

Definition run_check (c : Check) : M unit :=
  match c with
  | CheckIP ip => checkIP ip
  | CheckCreditCard paymentMethod => checkCreditCard paymentMethod
  | CheckUser user => checkUser user
  | CheckEmail email => checkEmail email
  end.

(** The [checks] array of [orderFraudProtection], in push order. *)
Definition checks (req : Request) (order : Order) : list Check :=
  (if truthy (ip req) then [CheckIP (default "" (ip req))] else [])
  ++ match paymentMethod order with
     | Some pm => if creditCardInfo pm is Some _ then [CheckCreditCard pm] else []
     | None => []
     end
  ++ match remoteUser req with
     | Some user => [CheckUser user]
     | None =>
         if truthy (guestInfo order ≫= email)
         then [CheckEmail (default "" (guestInfo order ≫= email))]
         else []
     end.

(** The selected checks are all called before anything is awaited; the
    model runs them in push order. *)
Definition orderFraudProtection (req : Request) (order : Order) : M unit :=
  promises <- start_all (run_check <$> checks req order) ;;
  await (Promise_all promises) ;;
  ret tt.

(** ** Auxiliary notions used in the statements *)

(** The argument arrays of the successive statistics calls of one check:
    call [k] sees the array with the intervals of rules [0..k] pushed. *)
Fixpoint call_args (args : list jsval) (limitParams : list LimitParams)
  : list (list jsval) :=
  match limitParams with
  | [] => []
  | rule :: rest =>
      let args := args ++ [interval_val (interval rule)] in
      args :: call_args args rest
  end.

(** Rule [k] is violated by the statistics its own call returned. *)
Definition violated_at (statFn : StatFn) (args : list jsval)
    (limitParams : list LimitParams) (k : nat) : Prop :=
  exists rule a stat,
    limitParams !! k = Some rule /\ call_args args limitParams !! k = Some a /\
    statFn a = Resolved stat /\ fail (limits rule) stat = true.

(** Rule [k] gets statistics and they do not violate it. *)
Definition passed_at (statFn : StatFn) (args : list jsval)
    (limitParams : list LimitParams) (k : nat) : Prop :=
  exists rule a stat,
    limitParams !! k = Some rule /\ call_args args limitParams !! k = Some a /\
    statFn a = Resolved stat /\ fail (limits rule) stat = false.

(** The promises that [limitParams.map(assertLimit)] returns. *)
Definition limit_promises (statFn : StatFn) (args : list jsval)
    (limitParams : list LimitParams) : list (Promise unit) :=
  zip_with (fun rule a => settle rule (statFn a)) limitParams (call_args args limitParams).

(** The [args] array once every rule has pushed its interval. *)
Definition pushed_args (args : list jsval) (limitParams : list LimitParams) : list jsval :=
  args ++ ((fun rule => interval_val (interval rule)) <$> limitParams).

(** The pre-check does not stop the check: enforcement is off, or the
    store is consulted and the asset is not in it. *)
Definition not_blocked (options : ValidateStatOptions) (w : World) : Prop :=
  ENFORCE_SUSPENDED_ASSET = false \/
  (preCheck options = None /\
   forall asset, assetParams options = Some asset -> suspended w !! asset_key asset = None).

(** The events of a pre-check that consults the store. *)
Definition entry_events (options : ValidateStatOptions) : list Event :=
  if ENFORCE_SUSPENDED_ASSET then
    match preCheck options, assetParams options with
    | None, Some asset => [StoreLookup asset]
    | _, _ => []
    end
  else [].

(** The rejection that [Promise.all] reports for the rules of a check. *)
Definition first_rejection (statFn : StatFn) (args : list jsval)
    (limitParams : list LimitParams) : Error :=
  match rejections (limit_promises statFn args limitParams) with
  | [] => Error_ ""
  | e :: es => nth (race (e :: es) mod length (e :: es)) (e :: es) e
  end.

(** The error that the [catch] block of [validateStat] builds. *)
Definition validation_error (statFn : StatFn) (args : list jsval)
    (errorMessage : string) (limitParams : list LimitParams) : Error :=
  ValidationFailed (errorMessage +:+ ": " +:+ message (first_rejection statFn args limitParams))
                   (pushed_args args limitParams) limitParams.

(** The events of a failing check up to the call of the failure handler. *)
Definition events_to_failure (options : ValidateStatOptions) (statFn : StatFn)
    (args : list jsval) (errorMessage : string) (limitParams : list LimitParams)
  : list Event :=
  entry_events options ++ (StatQuery <$> call_args args limitParams)
  ++ [LogWarn (message (validation_error statFn args errorMessage limitParams))].

(** [await onFail.catch(logger.error)], from the run of the handler. *)
Definition caught (r : Outcome unit * World) : World :=
  match r.1 with
  | Resolved _ => r.2
  | Rejected e => emit (LogError e) r.2
  end.

(** The asset that a check of [orderFraudProtection] suspends. *)
Definition check_asset (c : Check) : option AssetParams :=
  match c with
  | CheckIP ip => Some {| type := IP; fingerprint := ip |}
  | CheckCreditCard paymentMethod =>
      (fun info => {| type := CREDIT_CARD;
                      fingerprint := card_fingerprint (name paymentMethod) info |})
        <$> creditCardInfo paymentMethod
  | CheckUser user => Some {| type := USER; fingerprint := pretty (id user) |}
  | CheckEmail email => Some {| type := EMAIL_ADDRESS; fingerprint := email_fingerprint email |}
  end.

(** The statistics function, the initial [args] array and the limit list
    of a check of [orderFraudProtection]. *)
Definition check_call (c : Check) : option (StatFn * list jsval * string) :=
  match c with
  | CheckIP ip =>
      Some (spread_getIpStats db NOW INTERVAL LIKE, [VString ip], config_fraud_order_ip)
  | CheckCreditCard paymentMethod =>
      (fun info => (spread_getCreditCardStats db NOW INTERVAL,
                    [VCard (name paymentMethod) info], config_fraud_order_card))
        <$> creditCardInfo paymentMethod
  | CheckUser user =>
      Some (spread_getUserStats db NOW INTERVAL, [VUser user], config_fraud_order_user)
  | CheckEmail email =>
      Some (spread_getEmailStats db NOW INTERVAL LIKE, [VString email],
            config_fraud_order_email)
  end.

(** From [w] to [w'] the store has kept its keys and its fault, and the
    trace has been extended. *)
Definition grows (w w' : World) : Prop :=
  write_fault w' = write_fault w /\
  (forall key, is_Some (suspended w !! key) -> is_Some (suspended w' !! key)) /\
  trace w `prefix_of` trace w'.


(** ** Running the model *)

Lemma emits_nil w : emits [] w = w.
Proof. destruct w; unfold emits; simpl; by rewrite app_nil_r. Qed.

Lemma emits_emits a b w : emits b (emits a w) = emits (a ++ b) w.
Proof. unfold emits; simpl; by rewrite app_assoc. Qed.

Lemma emit_emits a ev w : emit ev (emits a w) = emits (a ++ [ev]) w.
Proof. apply emits_emits. Qed.


Lemma map_assertLimit_run statFn rules : forall args w,
  map_assertLimit statFn args rules w =
    (Resolved (pushed_args args rules, limit_promises statFn args rules),
     emits (StatQuery <$> call_args args rules) w).
Proof.
  induction rules as [|rule rules IH]; intros args w.
  - simpl. unfold ret, pushed_args, limit_promises. simpl.
    by rewrite app_nil_r, emits_nil.
  - cbn [map_assertLimit]. unfold bind at 1.
    unfold makeStatLimitChecker, bind, log, ret. unfold bind in IH.
    rewrite IH. cbn [fst snd]. unfold emit. rewrite emits_emits.
    unfold pushed_args, limit_promises. cbn [call_args fmap list_fmap zip_with app].
    by rewrite <- app_assoc.
Qed.

Lemma Promise_all_resolved {A} (ps : list (Promise A)) :
  rejections ps = [] -> Promise_all ps = Resolved (fulfilled ps).
Proof. unfold Promise_all. by intros ->. Qed.

Lemma Promise_all_rejected {A} (ps : list (Promise A)) e es :
  rejections ps = e :: es ->
  Promise_all ps = Rejected (nth (race (e :: es) mod length (e :: es)) (e :: es) e).
Proof. unfold Promise_all. by intros ->. Qed.

Lemma Promise_all_rejects_iff {A} (ps : list (Promise A)) :
  (exists e, Promise_all ps = Rejected e) <-> rejections ps <> [].
Proof.
  unfold Promise_all. destruct (rejections ps) as [|e es].
  - split; [intros [e He]; discriminate | congruence].
  - split; [done | eauto].
Qed.

Lemma elem_of_rejections {A} (ps : list (Promise A)) e :
  e ∈ rejections ps <-> Rejected e ∈ ps.
Proof.
  induction ps as [|[a|e'] ps IH]; simpl.
  - split; intros H; inversion H.
  - rewrite IH. split; [apply list_elem_of_further|].
    intros H; inversion H; subst; done.
  - rewrite !elem_of_cons, IH. split; intros [H|H]; auto; left; congruence.
Qed.

Lemma rejections_nil_iff {A} (ps : list (Promise A)) :
  rejections ps = [] <-> forall e, Rejected e ∉ ps.
Proof.
  split.
  - intros H e He. apply elem_of_rejections in He. rewrite H in He. inversion He.
  - intros H. destruct (rejections ps) as [|e es] eqn:E; [done|].
    exfalso. apply (H e), elem_of_rejections. rewrite E. left.
Qed.

Lemma limit_promises_lookup statFn args rules k p :
  limit_promises statFn args rules !! k = Some p <->
  exists rule a, rules !! k = Some rule /\ call_args args rules !! k = Some a /\
                 p = settle rule (statFn a).
Proof.
  unfold limit_promises. rewrite lookup_zip_with_Some.
  split; intros (rule & a & H1 & H2 & H3); by exists rule, a.
Qed.

Lemma settle_rejected_by_violation rule stat :
  (exists e, settle rule (Resolved stat) = Rejected e) <-> fail (limits rule) stat = true.
Proof.
  simpl. destruct (fail (limits rule) stat).
  - split; eauto.
  - split; [intros [e He]; discriminate | discriminate].
Qed.

Lemma violated_rejects statFn args rules k :
  violated_at statFn args rules k -> rejections (limit_promises statFn args rules) <> [].
Proof.
  intros (rule & a & stat & Hr & Ha & Hs & Hf) Hnil.
  rewrite rejections_nil_iff in Hnil.
  destruct (proj2 (settle_rejected_by_violation rule stat) Hf) as [e He].
  apply (Hnil e), list_elem_of_lookup. exists k.
  apply limit_promises_lookup. exists rule, a. by rewrite Hs.
Qed.


Lemma passed_resolves statFn args rules :
  (forall k, k < length rules -> passed_at statFn args rules k)%nat ->
  rejections (limit_promises statFn args rules) = [].
Proof.
  intros Hpass. apply rejections_nil_iff. intros e He.
  apply list_elem_of_lookup in He as [k Hk].
  apply limit_promises_lookup in Hk as (rule & a & Hr & Ha & Hp).
  destruct (Hpass k) as (rule' & a' & stat & Hr' & Ha' & Hs & Hf).
  { by eapply lookup_lt_Some. }
  simplify_eq. rewrite Hs in Hp. simpl in Hp. rewrite Hf in Hp. discriminate.
Qed.

Lemma entry_not_enforced options w :
  ENFORCE_SUSPENDED_ASSET = false -> entry options w = (Resolved tt, w).
Proof. unfold entry. by intros ->. Qed.

Lemma entry_lookup options asset w :
  ENFORCE_SUSPENDED_ASSET = true -> preCheck options = None ->
  assetParams options = Some asset ->
  entry options w =
    (match suspended w !! asset_key asset with
     | Some _ => Rejected (SuspendedError asset)
     | None => Resolved tt
     end, emit (StoreLookup asset) w).
Proof.
  unfold entry, pre_check. intros -> -> ->.
  unfold assertAssetIsNotSuspended, bind, log. simpl.
  by destruct (suspended w !! asset_key asset).
Qed.

Lemma entry_nothing_to_check options w :
  preCheck options = None -> assetParams options = None ->
  entry options w = (Resolved tt, w).
Proof. unfold entry, pre_check. intros -> ->. by destruct ENFORCE_SUSPENDED_ASSET. Qed.

Lemma validateStat_entry_rejects statFn args str msg options w e w1 :
  entry options w = (Rejected e, w1) ->
  validateStat statFn args str msg options w = (Rejected e, w1).
Proof. unfold validateStat. unfold bind at 1. by intros ->. Qed.

Lemma validateStat_parse_throws statFn args str msg options w w1 :
  entry options w = (Resolved tt, w1) -> JSON_parse str = None ->
  exists e, validateStat statFn args str msg options w = (Rejected e, w1).
Proof.
  unfold validateStat. unfold bind at 1. intros -> Hparse.
  unfold bind at 1. rewrite Hparse. unfold throw. eauto.
Qed.

Lemma validateStat_passes statFn args str msg options rules w w1 :
  entry options w = (Resolved tt, w1) -> JSON_parse str = Some rules ->
  rejections (limit_promises statFn args rules) = [] ->
  validateStat statFn args str msg options w =
    (Resolved tt, emits (StatQuery <$> call_args args rules) w1).
Proof.
  unfold validateStat. unfold bind at 1. intros -> Hparse Hnone.
  unfold bind at 1. rewrite Hparse. unfold ret at 1.
  unfold bind at 1. rewrite map_assertLimit_run. cbn [fst snd].
  unfold try_catch, bind, await, ret. by rewrite (Promise_all_resolved _ Hnone).
Qed.

Lemma validateStat_fails statFn args str msg options rules w w1 e0 es :
  entry options w = (Resolved tt, w1) -> JSON_parse str = Some rules ->
  rejections (limit_promises statFn args rules) = e0 :: es ->
  let e := nth (race (e0 :: es) mod length (e0 :: es)) (e0 :: es) e0 in
  let error := ValidationFailed (msg +:+ ": " +:+ message e) (pushed_args args rules) rules in
  let w2 := emits ((StatQuery <$> call_args args rules) ++ [LogWarn (message error)]) w1 in
  validateStat statFn args str msg options w =
    (if ENFORCE_SUSPENDED_ASSET then Rejected error else Resolved tt,
     match (on_fail options error w2).1 with
     | Resolved _ => (on_fail options error w2).2
     | Rejected e' => emit (LogError e') (on_fail options error w2).2
     end).
Proof.
  unfold validateStat. unfold bind at 1. intros -> Hparse Hsome.
  unfold bind at 1. rewrite Hparse. unfold ret at 1.
  unfold bind at 1. rewrite map_assertLimit_run. cbn [fst snd].
  unfold try_catch at 1. unfold bind at 1. unfold await.
  rewrite (Promise_all_rejected _ _ _ Hsome).
  unfold logger_warn, logger_error, log. unfold bind at 1.
  rewrite emit_emits. unfold bind at 1. unfold try_catch.
  cbn [message]. simpl.
  destruct (on_fail options _ _) as [[[]|e'] w3]; simpl;
    by destruct ENFORCE_SUSPENDED_ASSET.
Qed.

Lemma entry_clear options w :
  not_blocked options w -> entry options w = (Resolved tt, emits (entry_events options) w).
Proof.
  unfold not_blocked, entry_events. intros [Hoff | [Hpre Hfree]].
  - rewrite (entry_not_enforced _ _ Hoff), Hoff. by rewrite emits_nil.
  - destruct ENFORCE_SUSPENDED_ASSET eqn:Hon.
    + rewrite Hpre. destruct (assetParams options) as [asset|] eqn:Hasset.
      * unfold entry. rewrite Hon. unfold pre_check. rewrite Hpre, Hasset.
        unfold assertAssetIsNotSuspended, bind, log. simpl.
        by rewrite (Hfree asset eq_refl).
      * unfold entry. rewrite Hon. unfold pre_check. rewrite Hpre, Hasset.
        unfold ret. by rewrite emits_nil.
    + unfold entry. rewrite Hon. unfold ret. by rewrite emits_nil.
Qed.

Lemma validateStat_violation statFn args str msg options rules w k :
  JSON_parse str = Some rules -> not_blocked options w ->
  violated_at statFn args rules k ->
  validateStat statFn args str msg options w =
    (if ENFORCE_SUSPENDED_ASSET then Rejected (validation_error statFn args msg rules)
     else Resolved tt,
     caught (on_fail options (validation_error statFn args msg rules)
               (emits (events_to_failure options statFn args msg rules) w))).
Proof.
  intros Hparse Hclear Hviol.
  apply entry_clear in Hclear. apply violated_rejects in Hviol.
  destruct (rejections (limit_promises statFn args rules)) as [|e0 es] eqn:Hrej; [done|].
  rewrite (validateStat_fails _ _ _ msg _ _ _ _ _ _ Hclear Hparse Hrej).
  unfold caught, events_to_failure, validation_error, first_rejection.
  rewrite Hrej. rewrite emits_emits. by rewrite ?app_assoc.
Qed.

Lemma validateStat_no_violation statFn args str msg options rules w :
  JSON_parse str = Some rules -> not_blocked options w ->
  (forall k, k < length rules -> passed_at statFn args rules k)%nat ->
  validateStat statFn args str msg options w =
    (Resolved tt, emits (entry_events options ++ (StatQuery <$> call_args args rules)) w).
Proof.
  intros Hparse Hclear Hpass.
  apply entry_clear in Hclear. apply passed_resolves in Hpass.
  rewrite (validateStat_passes _ _ _ msg _ _ _ _ Hclear Hparse Hpass).
  by rewrite emits_emits.
Qed.

(** ** The threshold evaluator *)


Example violation_within_one_day : fail [5; 0.3; 0.3]%Q sample_stats = true.
Proof. reflexivity. Qed.

Example no_violation_below_order_limit : fail [20; 0.3; 0.3]%Q sample_stats = false.
Proof. reflexivity. Qed.


(** ** The shared [args] array *)

Lemma call_args_shared rules : forall args,
  call_args args rules =
    (fun k => args ++ ((fun rule => interval_val (interval rule)) <$> take (S k) rules))
      <$> seq 0 (length rules).
Proof.
  induction rules as [|rule rules IH]; intros args; [done|].
  cbn [call_args length seq fmap list_fmap take]. f_equal.
  rewrite IH, <- fmap_S_seq, <- list_fmap_compose.
  apply list_fmap_ext. intros _ k _. simpl. by rewrite <- app_assoc.
Qed.

(** C2: the statistics function is called once per rule, in rule order, but
    every call receives the one [args] array that all the rules push their
    interval on: call [k] is [statFn(...args, interval_0, ..., interval_k)].
    With the rules [["1 day", ...], ["1 month", ...]] of a user check, the
    second query is made with the array [[user, "1 day", "1 month"]], and
    [getUserStats] takes its interval from the second position: the
    statistics for the "1 month" rule are computed over "1 day". *)
Theorem C2_calls_share_the_args_array (statFn : StatFn) (args : list jsval)
    (rules : list LimitParams) (w : World) :
  map_assertLimit statFn args rules w =
    (Resolved (pushed_args args rules, limit_promises statFn args rules),
     emits (StatQuery <$>
              ((fun k => args ++ ((fun rule => interval_val (interval rule))
                                    <$> take (S k) rules))
                 <$> seq 0 (length rules))) w) /\
  (forall (user : User) (limits_day limits_month : list Q),
      (map_assertLimit (spread_getUserStats db NOW INTERVAL) [VUser user]
         [ {| interval := Some "1 day"; limits := limits_day |};
           {| interval := Some "1 month"; limits := limits_month |} ] w).2
      = emits [ StatQuery [VUser user; VString "1 day"];
                StatQuery [VUser user; VString "1 day"; VString "1 month"] ] w /\
      spread_getUserStats db NOW INTERVAL [VUser user; VString "1 day"; VString "1 month"]
      = getUserStats db NOW INTERVAL user (Some "1 day")).
Proof.
  split.
  - by rewrite map_assertLimit_run, call_args_shared.
  - intros user l1 l2. by rewrite map_assertLimit_run.
Qed.

(** ** The pre-check *)

Lemma validateStat_suspended statFn args str msg options asset reason w :
  ENFORCE_SUSPENDED_ASSET = true -> preCheck options = None ->
  assetParams options = Some asset ->
  suspended w !! asset_key asset = Some reason ->
  validateStat statFn args str msg options w =
    (Rejected (SuspendedError asset), emit (StoreLookup asset) w).
Proof.
  intros Hon Hpre Hasset Hsusp. apply validateStat_entry_rejects.
  rewrite (entry_lookup _ _ _ Hon Hpre Hasset). by rewrite Hsusp.
Qed.

Lemma run_check_suspended c asset reason w :
  ENFORCE_SUSPENDED_ASSET = true -> check_asset c = Some asset ->
  suspended w !! asset_key asset = Some reason ->
  run_check c w = (Rejected (SuspendedError asset), emit (StoreLookup asset) w).
Proof.
  intros Hon Hasset Hsusp. destruct c as [ip|pm|user|email]; simpl in *.
  - injection Hasset as <-. by eapply validateStat_suspended.
  - unfold checkCreditCard. destruct (creditCardInfo pm) as [info|]; [|done].
    injection Hasset as <-. by eapply validateStat_suspended.
  - injection Hasset as <-. by eapply validateStat_suspended.
  - injection Hasset as <-. by eapply validateStat_suspended.
Qed.

Lemma entry_store options w :
  preCheck options = None -> exists evs, (entry options w).2 = emits evs w.
Proof.
  intros Hpre. unfold entry, pre_check. rewrite Hpre.
  destruct ENFORCE_SUSPENDED_ASSET; [destruct (assetParams options) as [asset|]|].
  - unfold assertAssetIsNotSuspended, bind, log. simpl.
    exists [StoreLookup asset]. by destruct (suspended w !! asset_key asset).
  - exists []. by rewrite emits_nil.
  - exists []. by rewrite emits_nil.
Qed.

Lemma grows_refl w : grows w w.
Proof. by repeat split. Qed.

Lemma grows_trans w1 w2 w3 : grows w1 w2 -> grows w2 w3 -> grows w1 w3.
Proof.
  intros (Hf1 & Hk1 & Ht1) (Hf2 & Hk2 & Ht2).
  split; [congruence|]. split; [auto | by etrans].
Qed.

Lemma grows_emits evs w : grows w (emits evs w).
Proof. repeat split; [done|]. simpl. by apply prefix_app_r. Qed.

Lemma create_grows asset message w :
  grows w (caught (SuspendedAsset_create asset message w)).
Proof.
  unfold SuspendedAsset_create, caught, bind, log. cbn [fst snd emit emits write_fault].
  destruct (write_fault w) eqn:Hfault; cbn [fst snd].
  { unfold emit. rewrite emits_emits. apply grows_emits. }
  destruct asset as [a|]; cbn [fst snd].
  2: { unfold emit. rewrite emits_emits. apply grows_emits. }
  split; [done|]. split; [|simpl; by apply prefix_app_r].
  simpl. intros key Hkey.
  destruct (decide (asset_key a = key)) as [->|Hne].
  - rewrite lookup_insert_eq. eauto.
  - by rewrite lookup_insert_ne.
Qed.

Lemma validateStat_grows statFn args str msg options asset w :
  preCheck options = None ->
  (forall error, on_fail options error = SuspendedAsset_create asset (message error)) ->
  grows w (validateStat statFn args str msg options w).2.
Proof.
  intros Hpre Hfail.
  destruct (entry_store options w Hpre) as [evs Hevs].
  destruct (entry options w) as [[[]|e] w1] eqn:Hentry; simpl in Hevs; subst w1.
  - destruct (JSON_parse str) as [rules|] eqn:Hparse.
    + destruct (rejections (limit_promises statFn args rules)) as [|e0 es] eqn:Hrej.
      * rewrite (validateStat_passes _ _ _ msg _ _ _ _ Hentry Hparse Hrej).
        cbn [snd]. rewrite emits_emits. apply grows_emits.
      * rewrite (validateStat_fails _ _ _ msg _ _ _ _ _ _ Hentry Hparse Hrej).
        cbn [snd]. rewrite Hfail, emits_emits.
        eapply grows_trans; [apply grows_emits | apply create_grows].
    + destruct (validateStat_parse_throws statFn args _ msg _ _ _ Hentry Hparse) as [e ->].
      apply grows_emits.
  - rewrite (validateStat_entry_rejects _ _ _ _ _ _ _ _ Hentry). apply grows_emits.
Qed.

Lemma run_check_grows c w : grows w (run_check c w).2.
Proof.
  destruct c as [ip|pm|user|email]; simpl.
  - by eapply validateStat_grows.
  - unfold checkCreditCard. destruct (creditCardInfo pm) as [info|]; [|apply grows_refl].
    by eapply validateStat_grows.
  - by eapply validateStat_grows.
  - by eapply validateStat_grows.
Qed.

Lemma start_all_total {A} (calls : list (M A)) w :
  exists ps w', start_all calls w = (Resolved ps, w').
Proof.
  revert w. induction calls as [|call calls IH]; intros w; simpl.
  - by eexists _, _.
  - unfold bind, start, ret. destruct (call w) as [o w1].
    destruct (IH w1) as (ps & w' & ->). by eexists _, _.
Qed.

Lemma start_all_suspended cs c asset w :
  ENFORCE_SUSPENDED_ASSET = true -> c ∈ cs -> check_asset c = Some asset ->
  is_Some (suspended w !! asset_key asset) ->
  exists ps w', start_all (run_check <$> cs) w = (Resolved ps, w') /\ rejections ps <> [].
Proof.
  intros Hon Hin Hasset. revert w.
  induction cs as [|c0 cs IH]; intros w Hsusp; [inversion Hin|].
  cbn [fmap list_fmap start_all]. unfold bind at 1. unfold start at 1.
  apply elem_of_cons in Hin as [<-|Hin].
  - destruct Hsusp as [reason Hsusp].
    rewrite (run_check_suspended _ _ _ _ Hon Hasset Hsusp).
    unfold bind, ret.
    destruct (start_all_total (run_check <$> cs) (emit (StoreLookup asset) w))
      as (ps & w' & ->).
    by eexists _, _.
  - pose proof (proj1 (proj2 (run_check_grows c0 w)) _ Hsusp) as Hkept.
    destruct (run_check c0 w) as [o w1]. simpl in Hkept.
    destruct (IH Hin w1 Hkept) as (ps & w' & Hrun & Hrej).
    unfold bind, ret. rewrite Hrun. eexists _, _. split; [done|].
    simpl. by destruct o.
Qed.

(** C3 (amended): with enforcement enabled and no custom pre-check, a check
    whose asset is already in the store rejects at once: the only event is
    the store lookup, no statistics are queried, and an order that selects
    such a check is rejected. *)
Theorem C3_suspended_asset_rejects_without_stats :
  ENFORCE_SUSPENDED_ASSET = true ->
  (forall statFn args str msg options asset reason w,
      preCheck options = None -> assetParams options = Some asset ->
      suspended w !! asset_key asset = Some reason ->
      validateStat statFn args str msg options w =
        (Rejected (SuspendedError asset), emit (StoreLookup asset) w)) /\
  (forall req order c asset reason w,
      c ∈ checks req order -> check_asset c = Some asset ->
      suspended w !! asset_key asset = Some reason ->
      run_check c w = (Rejected (SuspendedError asset), emit (StoreLookup asset) w) /\
      exists e w', orderFraudProtection req order w = (Rejected e, w')).
Proof.
  intros Hon. split.
  - intros. by eapply validateStat_suspended.
  - intros req order c asset reason w Hin Hasset Hsusp. split.
    + by eapply run_check_suspended.
    + unfold orderFraudProtection.
      destruct (start_all_suspended _ _ _ w Hon Hin Hasset) as (ps & w' & Hrun & Hrej);
        [by eauto|].
      unfold bind at 1. rewrite Hrun. unfold bind, await.
      apply Promise_all_rejects_iff in Hrej as [e ->]. by eexists _, _.
Qed.

(** ** Failure handling *)

Lemma entry_events_not_enforced options :
  ENFORCE_SUSPENDED_ASSET = false -> entry_events options = [].
Proof. unfold entry_events. by intros ->. Qed.

Lemma validateStat_not_enforced_resolves statFn args str msg options rules w :
  ENFORCE_SUSPENDED_ASSET = false -> JSON_parse str = Some rules ->
  (validateStat statFn args str msg options w).1 = Resolved tt.
Proof.
  intros Hoff Hparse. pose proof (entry_not_enforced options w Hoff) as Hentry.
  destruct (rejections (limit_promises statFn args rules)) as [|e0 es] eqn:Hrej.
  - by rewrite (validateStat_passes _ _ _ msg _ _ _ _ Hentry Hparse Hrej).
  - rewrite (validateStat_fails _ _ _ msg _ _ _ _ _ _ Hentry Hparse Hrej).
    by rewrite Hoff.
Qed.

Lemma in_checks_has_asset req order c : c ∈ checks req order -> is_Some (check_asset c).
Proof.
  unfold checks. rewrite !elem_of_app. intros [Hin|[Hin|Hin]].
  - destruct (truthy (ip req)); [|inversion Hin].
    apply list_elem_of_singleton in Hin as ->. simpl. eauto.
  - destruct (paymentMethod order) as [pm|]; [|inversion Hin].
    destruct (creditCardInfo pm) as [info|] eqn:Hinfo; [|inversion Hin].
    apply list_elem_of_singleton in Hin as ->. simpl. rewrite Hinfo. simpl. eauto.
  - destruct (remoteUser req) as [user|].
    + apply list_elem_of_singleton in Hin as ->. simpl. eauto.
    + destruct (truthy (guestInfo order ≫= email)); [|inversion Hin].
      apply list_elem_of_singleton in Hin as ->. simpl. eauto.
Qed.

(** Each check of [orderFraudProtection] is a call of [validateStat]
    without a custom pre-check, whose failure action writes the suspension
    record of the check's asset. *)
Lemma run_check_is_validateStat c asset :
  check_asset c = Some asset ->
  exists statFn args str msg options,
    run_check c = validateStat statFn args str msg options /\
    In str [config_fraud_order_user; config_fraud_order_card;
            config_fraud_order_ip; config_fraud_order_email] /\
    preCheck options = None /\ assetParams options = Some asset /\
    forall error, on_fail options error = SuspendedAsset_create (Some asset) (message error).
Proof.
  intros Hasset. destruct c as [ip|pm|user|email]; simpl in *.
  - injection Hasset as <-. eexists _, _, _, _, _.
    split; [reflexivity|]. split; [simpl; tauto|]. done.
  - unfold checkCreditCard. destruct (creditCardInfo pm) as [info|]; [|done].
    injection Hasset as <-. eexists _, _, _, _, _.
    split; [reflexivity|]. split; [simpl; tauto|]. done.
  - injection Hasset as <-. eexists _, _, _, _, _.
    split; [reflexivity|]. split; [simpl; tauto|]. done.
  - injection Hasset as <-. eexists _, _, _, _, _.
    split; [reflexivity|]. split; [simpl; tauto|]. done.
Qed.

Lemma start_all_resolved (calls : list (M unit)) w :
  (forall call w0, call ∈ calls -> (call w0).1 = Resolved tt) ->
  exists ps w', start_all calls w = (Resolved ps, w') /\ rejections ps = [].
Proof.
  revert w. induction calls as [|call calls IH]; intros w Hall; simpl.
  - by eexists _, _.
  - unfold bind, start, ret.
    pose proof (Hall call w ltac:(left)) as Hcall.
    destruct (call w) as [o w1]. simpl in Hcall. subst o.
    destruct (IH w1) as (ps & w' & -> & Hrej).
    { intros c w0 Hc. apply Hall. by right. }
    by eexists _, _.
Qed.

Lemma orderFraudProtection_not_enforced req order w :
  ENFORCE_SUSPENDED_ASSET = false ->
  (forall str, In str [config_fraud_order_user; config_fraud_order_card;
                       config_fraud_order_ip; config_fraud_order_email] ->
               is_Some (JSON_parse str)) ->
  exists w', orderFraudProtection req order w = (Resolved tt, w').
Proof.
  intros Hoff Hparse. unfold orderFraudProtection.
  destruct (start_all_resolved (run_check <$> checks req order) w) as (ps & w' & Hrun & Hrej).
  { intros call w0 Hcall. apply list_elem_of_fmap in Hcall as (c & -> & Hc).
    destruct (in_checks_has_asset _ _ _ Hc) as [asset Hasset].
    destruct (run_check_is_validateStat c asset Hasset)
      as (statFn & args & str & msg & options & -> & Hstr & _).
    destruct (Hparse str Hstr) as [rules Hrules].
    by eapply validateStat_not_enforced_resolves. }
  unfold bind at 1. rewrite Hrun. unfold bind, await, ret.
  rewrite (Promise_all_resolved _ Hrej). by eexists.
Qed.

Lemma run_check_call c asset statFn args str :
  check_asset c = Some asset -> check_call c = Some (statFn, args, str) ->
  exists msg options,
    run_check c = validateStat statFn args str msg options /\
    preCheck options = None /\ assetParams options = Some asset /\
    forall error, on_fail options error = SuspendedAsset_create (Some asset) (message error).
Proof.
  intros Hasset Hcall. destruct c as [ip|pm|user|email]; simpl in *.
  - injection Hasset as <-. injection Hcall as <- <- <-. by eexists _, _.
  - unfold checkCreditCard. destruct (creditCardInfo pm) as [info|]; [|done].
    injection Hasset as <-. injection Hcall as <- <- <-. by eexists _, _.
  - injection Hasset as <-. injection Hcall as <- <- <-. by eexists _, _.
  - injection Hasset as <-. injection Hcall as <- <- <-. by eexists _, _.
Qed.

Lemma validateStat_records statFn args str msg options rules asset w k :
  JSON_parse str = Some rules -> not_blocked options w ->
  violated_at statFn args rules k ->
  (forall error, on_fail options error = SuspendedAsset_create (Some asset) (message error)) ->
  let error := validation_error statFn args msg rules in
  let events := entry_events options ++ (StatQuery <$> call_args args rules)
                ++ [LogWarn (message error); StoreCreate (Some asset) (message error)] in
  validateStat statFn args str msg options w =
    (if ENFORCE_SUSPENDED_ASSET then Rejected error else Resolved tt,
     match write_fault w with
     | None => store_insert asset (message error) (emits events w)
     | Some fault => emits (events ++ [LogError fault]) w
     end).
Proof.
  intros Hparse Hclear Hviol Hfail error events.
  rewrite (validateStat_violation _ _ _ msg _ _ _ _ Hparse Hclear Hviol). f_equal.
  rewrite Hfail. unfold caught, SuspendedAsset_create, bind, log, events_to_failure.
  cbn [fst snd]. unfold emit. rewrite emits_emits.
  subst events error. rewrite <- !app_assoc. cbn [app write_fault emits].
  destruct (write_fault w) as [fault|]; cbn [fst snd].
  - unfold emit. by rewrite emits_emits, <- !app_assoc.
  - done.
Qed.

Lemma run_check_records c asset statFn args str rules k w :
  ENFORCE_SUSPENDED_ASSET = false ->
  check_asset c = Some asset -> check_call c = Some (statFn, args, str) ->
  JSON_parse str = Some rules -> violated_at statFn args rules k ->
  exists reason,
    LogWarn reason ∈ trace (run_check c w).2 /\
    StoreCreate (Some asset) reason ∈ trace (run_check c w).2 /\
    (write_fault w = None -> is_Some (suspended (run_check c w).2 !! asset_key asset)).
Proof.
  intros Hoff Hasset Hcall Hparse Hviol.
  destruct (run_check_call _ _ _ _ _ Hasset Hcall) as (msg & options & -> & _ & _ & Hfail).
  rewrite (validateStat_records _ _ _ msg _ _ _ w _ Hparse (or_introl Hoff) Hviol Hfail).
  eexists. cbn [snd]. unfold store_insert, emits.
  destruct (write_fault w) as [fault|]; cbn [trace suspended].
  - split; [|split; [|done]]; rewrite !elem_of_app, !elem_of_cons; tauto.
  - split; [|split]; [rewrite !elem_of_app, !elem_of_cons; tauto..|].
    intros _. rewrite lookup_insert_eq. eauto.
Qed.

Lemma start_all_cons_world {A} (call : M A) (calls : list (M A)) w :
  (start_all (call :: calls) w).2 = (start_all calls (call w).2).2.
Proof.
  simpl. unfold bind, start, ret. destruct (call w) as [o w1]. cbn [snd].
  by destruct (start_all_total calls w1) as (ps & w' & ->).
Qed.

Lemma start_all_grows cs w : grows w (start_all (run_check <$> cs) w).2.
Proof.
  revert w. induction cs as [|c cs IH]; intros w; [apply grows_refl|].
  cbn [fmap list_fmap]. rewrite start_all_cons_world.
  eapply grows_trans; [apply run_check_grows | apply IH].
Qed.

Lemma start_all_records cs c asset statFn args str rules k w :
  ENFORCE_SUSPENDED_ASSET = false -> c ∈ cs ->
  check_asset c = Some asset -> check_call c = Some (statFn, args, str) ->
  JSON_parse str = Some rules -> violated_at statFn args rules k ->
  exists reason,
    LogWarn reason ∈ trace (start_all (run_check <$> cs) w).2 /\
    StoreCreate (Some asset) reason ∈ trace (start_all (run_check <$> cs) w).2 /\
    (write_fault w = None ->
     is_Some (suspended (start_all (run_check <$> cs) w).2 !! asset_key asset)).
Proof.
  intros Hoff Hin Hasset Hcall Hparse Hviol. revert w.
  induction cs as [|c0 cs IH]; intros w; [inversion Hin|].
  cbn [fmap list_fmap]. rewrite start_all_cons_world.
  apply elem_of_cons in Hin as [<-|Hin].
  - destruct (run_check_records _ _ _ _ _ _ _ w Hoff Hasset Hcall Hparse Hviol)
      as (reason & Hwarn & Hcreate & Hstore).
    destruct (start_all_grows cs (run_check c w).2) as (_ & Hkeys & [later Htrace]).
    exists reason. rewrite Htrace, !elem_of_app. auto.
  - destruct (IH Hin (run_check c0 w).2) as (reason & Hwarn & Hcreate & Hstore).
    exists reason. split; [done|]. split; [done|]. intros Hfault. apply Hstore.
    by rewrite (proj1 (run_check_grows c0 w)).
Qed.

Lemma orderFraudProtection_world req order w :
  (orderFraudProtection req order w).2 = (start_all (run_check <$> checks req order) w).2.
Proof.
  unfold orderFraudProtection. unfold bind at 1.
  destruct (start_all_total (run_check <$> checks req order) w) as (ps & w' & ->).
  unfold bind, await, ret. by destruct (Promise_all ps).
Qed.

(** C4: when the statistics of a check violate a rule, a warning is logged
    and the suspension record of the asset is written (by the default
    failure action, which is also what the handler of the user check does);
    the check then resolves when enforcement is disabled and rejects with
    the [ValidationFailed] error when it is enabled.  With enforcement
    disabled [orderFraudProtection] resolves too, having logged the warning
    and written the record of every check whose statistics violate a rule. *)
Theorem C4_violation_recorded_blocking_only_when_enforced :
  (forall statFn args str msg options rules asset w k,
      JSON_parse str = Some rules -> not_blocked options w ->
      violated_at statFn args rules k ->
      (forall error, on_fail options error = SuspendedAsset_create (Some asset) (message error)) ->
      let error := validation_error statFn args msg rules in
      let events := entry_events options ++ (StatQuery <$> call_args args rules)
                    ++ [LogWarn (message error); StoreCreate (Some asset) (message error)] in
      validateStat statFn args str msg options w =
        (if ENFORCE_SUSPENDED_ASSET then Rejected error else Resolved tt,
         match write_fault w with
         | None => store_insert asset (message error) (emits events w)
         | Some fault => emits (events ++ [LogError fault]) w
         end)) /\
  (forall c asset statFn args str,
      check_asset c = Some asset -> check_call c = Some (statFn, args, str) ->
      exists msg options,
        run_check c = validateStat statFn args str msg options /\
        preCheck options = None /\ assetParams options = Some asset /\
        forall error, on_fail options error = SuspendedAsset_create (Some asset) (message error)) /\
  (ENFORCE_SUSPENDED_ASSET = false ->
   (forall str, In str [config_fraud_order_user; config_fraud_order_card;
                        config_fraud_order_ip; config_fraud_order_email] ->
                is_Some (JSON_parse str)) ->
   forall req order w,
   exists w',
     orderFraudProtection req order w = (Resolved tt, w') /\
     forall c asset statFn args str rules k,
       c ∈ checks req order ->
       check_asset c = Some asset -> check_call c = Some (statFn, args, str) ->
       JSON_parse str = Some rules -> violated_at statFn args rules k ->
       exists reason,
         LogWarn reason ∈ trace w' /\ StoreCreate (Some asset) reason ∈ trace w' /\
         (write_fault w = None -> is_Some (suspended w' !! asset_key asset))).
Proof.
  split; [|split].
  - intros statFn args str msg options rules asset w k Hparse Hclear Hviol Hfail.
    by apply (validateStat_records _ _ _ _ _ _ _ _ k).
  - intros c asset statFn args str. apply run_check_call.
  - intros Hoff Hparse req order w.
    destruct (orderFraudProtection_not_enforced req order w Hoff Hparse) as [w' Hrun].
    exists w'. split; [done|].
    intros c asset statFn args str rules k Hin Hasset Hcall Hrules Hviol.
    pose proof (orderFraudProtection_world req order w) as Hworld.
    rewrite Hrun in Hworld. cbn [snd] in Hworld. rewrite Hworld.
    by eapply start_all_records.
Qed.

(** C5: when the caller gives a custom [onFail] handler, a violating check
    calls the handler with the [ValidationFailed] error, after the warning,
    and does nothing else but log the handler's failure: the default
    suspension write is not made, and the store is what the handler leaves. *)
Theorem C5_custom_handler_replaces_default
    statFn args str msg options handler rules w k :
  JSON_parse str = Some rules -> not_blocked options w ->
  violated_at statFn args rules k ->
  onFail options = Some handler ->
  let error := validation_error statFn args msg rules in
  let w2 := emits (entry_events options ++ (StatQuery <$> call_args args rules)
                   ++ [LogWarn (message error)]) w in
  validateStat statFn args str msg options w =
    (if ENFORCE_SUSPENDED_ASSET then Rejected error else Resolved tt,
     caught (handler error w2)) /\
  suspended w2 = suspended w /\
  suspended (validateStat statFn args str msg options w).2 = suspended (handler error w2).2 /\
  (suspended (handler error w2).2 = suspended w2 ->
   suspended (validateStat statFn args str msg options w).2 = suspended w).
Proof.
  intros Hparse Hclear Hviol Hhandler error w2.
  rewrite (validateStat_violation _ _ _ msg _ _ _ _ Hparse Hclear Hviol).
  unfold on_fail. rewrite Hhandler.
  assert (Hcaught : suspended (caught (handler error w2)) = suspended (handler error w2).2).
  { unfold caught. by destruct (handler error w2).1. }
  repeat split; try done. cbn [snd]. intros Hsame.
  fold error. unfold events_to_failure. fold error. fold w2. by rewrite Hcaught, Hsame.
Qed.

(** C6: when the suspension write of a violating check fails -- the
    handler's promise, or the default [SuspendedAsset.create], rejects with
    [fault] -- the fault is logged as an error and the check still settles
    as it does for any violation: rejected with the [ValidationFailed]
    error under enforcement, resolved otherwise. *)
Theorem C6_write_failure_is_logged_not_raised
    statFn args str msg options rules w k fault :
  JSON_parse str = Some rules -> not_blocked options w ->
  violated_at statFn args rules k ->
  let error := validation_error statFn args msg rules in
  let events := entry_events options ++ (StatQuery <$> call_args args rules)
                ++ [LogWarn (message error)] in
  ((on_fail options error (emits events w)).1 = Rejected fault ->
   validateStat statFn args str msg options w =
     (if ENFORCE_SUSPENDED_ASSET then Rejected error else Resolved tt,
      emit (LogError fault) (on_fail options error (emits events w)).2)) /\
  (onFail options = None -> write_fault w = Some fault ->
   validateStat statFn args str msg options w =
     (if ENFORCE_SUSPENDED_ASSET then Rejected error else Resolved tt,
      emits (events ++ [StoreCreate (assetParams options) (message error);
                        LogError fault]) w)).
Proof.
  intros Hparse Hclear Hviol error events.
  rewrite (validateStat_violation _ _ _ msg _ _ _ _ Hparse Hclear Hviol).
  fold error. unfold events_to_failure. fold error. fold events. split.
  - intros Hfault. unfold caught. by rewrite Hfault.
  - intros Hdefault Hwrite. unfold on_fail. rewrite Hdefault.
    unfold caught, SuspendedAsset_create, bind, log. cbn [fst snd write_fault emit emits].
    rewrite Hwrite. cbn [fst snd]. unfold emit. by rewrite !emits_emits.
Qed.

(** C10: with enforcement disabled the pre-check is skipped: the first
    statement of [validateStat] does nothing, so neither the store nor a
    custom pre-check is consulted.  Whatever the store holds -- also when
    the asset is suspended -- a check whose statistics violate no rule
    queries the statistics once per rule and resolves, and no check ever
    rejects. *)
Theorem C10_no_pre_check_without_enforcement :
  ENFORCE_SUSPENDED_ASSET = false ->
  (forall options w, entry options w = (Resolved tt, w)) /\
  (forall statFn args str msg options rules w,
      JSON_parse str = Some rules ->
      (forall k, k < length rules -> passed_at statFn args rules k)%nat ->
      validateStat statFn args str msg options w =
        (Resolved tt, emits (StatQuery <$> call_args args rules) w)) /\
  (forall statFn args str msg options rules w,
      JSON_parse str = Some rules ->
      (validateStat statFn args str msg options w).1 = Resolved tt).
Proof.
  intros Hoff. split; [|split].
  - intros. by apply entry_not_enforced.
  - intros statFn args str msg options rules w Hparse Hpass.
    rewrite (validateStat_no_violation _ _ _ msg options _ w Hparse (or_introl Hoff) Hpass).
    by rewrite (entry_events_not_enforced _ Hoff).
  - intros. by eapply validateStat_not_enforced_resolves.
Qed.

(** ** The selection of checks *)



(** ** Further properties of the gate *)

Lemma every_from_spec {A} (f : A -> nat -> bool) (xs : list A) : forall index,
  every_from f index xs = true <->
  forall k x, xs !! k = Some x -> f x (index + k)%nat = true.
Proof.
  induction xs as [|x xs IH]; intros index; simpl.
  - split; [|done]. intros _ k y Hk. by rewrite lookup_nil in Hk.
  - rewrite andb_true_iff, IH. split.
    + intros [Hx Hrest] [|k] y Hk; simpl in Hk.
      * injection Hk as <-. by rewrite Nat.add_0_r.
      * rewrite Nat.add_succ_r. by apply Hrest.
    + intros Hall. split.
      * rewrite <- (Nat.add_0_r index). by apply Hall.
      * intros k y Hk. replace (S index + k)%nat with (index + S k)%nat by lia.
        by apply Hall.
Qed.

Lemma fail_lookup (limits : list Q) (s : FraudStats) :
  fail limits s = true <->
  forall k limit, limits !! k = Some limit ->
    exists v, statArray s !! k = Some v /\ (limit <= v)%Q.
Proof.
  unfold fail, every. rewrite every_from_spec. split.
  - intros Hall k limit Hk. specialize (Hall k limit Hk).
    change (0 + k)%nat with k in Hall.
    destruct (statArray s !! k) as [v|]; simpl in Hall; [|done].
    exists v. split; [done|]. by apply Qle_bool_iff.
  - intros Hall k limit Hk. change (0 + k)%nat with k.
    destruct (Hall k limit Hk) as (v & -> & Hle).
    simpl. by apply Qle_bool_iff.
Qed.

(** X1: the checker compares limit [k] with element [k] of
    [[numberOfOrders, errorRate, paymentMethodRate]] for as many limits as
    the rule has.  A rule fails exactly when it has at most three limits and
    each is met: a rule with no limit fails for any statistics, a rule with
    only [maxOrders] looks at the number of orders alone, and a rule with a
    fourth limit never fails. *)
Theorem X1_rule_with_any_number_of_limits (limits : list Q) (s : FraudStats) :
  (fail limits s = true <->
   (length limits <= 3)%nat /\
   forall k limit, limits !! k = Some limit ->
     exists v, statArray s !! k = Some v /\ (limit <= v)%Q) /\
  fail [] s = true /\
  (forall maxOrders, fail [maxOrders] s = true <-> (maxOrders <= numberOfOrders s)%Q) /\
  (forall a b c d rest, fail (a :: b :: c :: d :: rest) s = false).
Proof.
  split; [|split; [done|split]].
  - rewrite fail_lookup. split; [|by intros [_ Hall]].
    intros Hall. split; [|done].
    destruct (decide (length limits <= 3)%nat) as [|Hlong]; [done|].
    destruct (lookup_lt_is_Some_2 limits 3) as [limit Hlimit]; [lia|].
    destruct (Hall 3%nat limit Hlimit) as (v & Hv & _). done.
  - intros maxOrders. unfold fail, every. simpl.
    by rewrite andb_true_r, Qle_bool_iff.
  - intros a b c d rest. apply not_true_is_false. rewrite fail_lookup.
    intros Hall. destruct (Hall 3%nat d eq_refl) as (v & Hv & _). done.
Qed.

(** X2: a violation is monotone: statistics that are at least as high on
    the three metrics, against limits that are at most as high, violate the
    rule as well. *)
Theorem X2_violation_is_monotone (limits limits' : list Q) (s s' : FraudStats) :
  fail limits s = true ->
  Forall2 Qle limits' limits ->
  (numberOfOrders s <= numberOfOrders s')%Q ->
  (errorRate s <= errorRate s')%Q ->
  (paymentMethodRate s <= paymentMethodRate s')%Q ->
  fail limits' s' = true.
Proof.
  rewrite !fail_lookup. intros Hall Hlimits Hn He Hp k limit' Hk.
  destruct (Forall2_lookup_l _ _ _ _ _ Hlimits Hk) as (limit & Hlimit & Hle).
  destruct (Hall k limit Hlimit) as (v & Hv & Hlv).
  destruct k as [|[|[|k]]]; simpl in Hv; [| | |done].
  - injection Hv as <-. eexists. split; [done|]. simpl.
    eapply Qle_trans; [exact Hle|]. by eapply Qle_trans.
  - injection Hv as <-. eexists. split; [done|]. simpl.
    eapply Qle_trans; [exact Hle|]. by eapply Qle_trans.
  - injection Hv as <-. eexists. split; [done|]. simpl.
    eapply Qle_trans; [exact Hle|]. by eapply Qle_trans.
Qed.

Lemma validateStat_rejection statFn args str msg options rules w :
  JSON_parse str = Some rules -> not_blocked options w ->
  rejections (limit_promises statFn args rules) <> [] ->
  validateStat statFn args str msg options w =
    (if ENFORCE_SUSPENDED_ASSET then Rejected (validation_error statFn args msg rules)
     else Resolved tt,
     caught (on_fail options (validation_error statFn args msg rules)
               (emits (events_to_failure options statFn args msg rules) w))).
Proof.
  intros Hparse Hclear Hsome. apply entry_clear in Hclear.
  destruct (rejections (limit_promises statFn args rules)) as [|e0 es] eqn:Hrej; [done|].
  rewrite (validateStat_fails _ _ _ msg _ _ _ _ _ _ Hclear Hparse Hrej).
  unfold caught, events_to_failure, validation_error, first_rejection.
  rewrite Hrej. rewrite emits_emits. by rewrite ?app_assoc.
Qed.

Lemma rejections_only_one {A} (ps : list (Promise A)) k e :
  ps !! k = Some (Rejected e) ->
  (forall j p, j <> k -> ps !! j = Some p -> exists a, p = Resolved a) ->
  rejections ps = [e].
Proof.
  revert k. induction ps as [|p ps IH]; intros k Hk Hothers; [done|].
  destruct k as [|k]; simpl in Hk.
  - injection Hk as ->. simpl. f_equal.
    apply rejections_nil_iff. intros e' He'.
    apply list_elem_of_lookup in He' as [j Hj].
    destruct (Hothers (S j) (Rejected e') ltac:(done) Hj) as [a Ha]. done.
  - destruct (Hothers 0%nat p ltac:(done) eq_refl) as [a ->]. simpl.
    apply (IH k Hk). intros j q Hjk Hq. apply (Hothers (S j) q); [congruence|done].
Qed.

(** X3: a statistics query that fails is handled like a violation.  When the
    promise of [statFn] rejects for some rule, [validateStat] logs the
    warning and runs the failure action -- the default action suspends the
    asset -- and what it throws under enforcement is its own
    [ValidationFailed] error, never the error of the query; when the other
    rules pass, the message of that error is the query's message after the
    check's prefix. *)
Theorem X3_failed_query_is_handled_as_violation
    statFn args str msg options rules w k rule a e :
  JSON_parse str = Some rules -> not_blocked options w ->
  rules !! k = Some rule -> call_args args rules !! k = Some a ->
  statFn a = Rejected e ->
  let error := validation_error statFn args msg rules in
  let events := entry_events options ++ (StatQuery <$> call_args args rules)
                ++ [LogWarn (message error)] in
  validateStat statFn args str msg options w =
    (if ENFORCE_SUSPENDED_ASSET then Rejected error else Resolved tt,
     caught (on_fail options error (emits events w))) /\
  (forall asset, onFail options = None -> assetParams options = Some asset ->
     write_fault w = None ->
     suspended (validateStat statFn args str msg options w).2 !! asset_key asset
     = Some (message error)) /\
  ((forall j, j <> k -> (j < length rules)%nat -> passed_at statFn args rules j) ->
   error = ValidationFailed (msg +:+ ": " +:+ message e) (pushed_args args rules) rules).
Proof.
  intros Hparse Hclear Hrule Ha He error events.
  assert (Hpromise : limit_promises statFn args rules !! k = Some (Rejected e)).
  { apply limit_promises_lookup. exists rule, a. by rewrite He. }
  assert (Hsome : rejections (limit_promises statFn args rules) <> []).
  { intros Hnil. rewrite rejections_nil_iff in Hnil.
    apply (Hnil e). by eapply list_elem_of_lookup_2. }
  assert (Hrun := validateStat_rejection statFn args str msg options rules w
                    Hparse Hclear Hsome).
  split; [|split].
  - rewrite Hrun. unfold events_to_failure. done.
  - intros asset Hdefault Hasset Hfault. rewrite Hrun. cbn [snd].
    unfold on_fail. rewrite Hdefault, Hasset.
    unfold caught, SuspendedAsset_create, bind, log.
    cbn [fst snd write_fault emit emits]. rewrite Hfault. cbn [fst snd].
    unfold store_insert. cbn [suspended]. by rewrite lookup_insert_eq.
  - intros Hothers. subst error. unfold validation_error, first_rejection.
    rewrite (rejections_only_one _ k e Hpromise).
    + by rewrite Nat.Div0.mod_same || done.
    + intros j p Hjk Hp. apply limit_promises_lookup in Hp as (rule' & a' & Hr' & Ha' & ->).
      destruct (Hothers j Hjk) as (rule'' & a'' & stat & Hr'' & Ha'' & Hs & Hf).
      { by eapply lookup_lt_Some. }
      simplify_eq. rewrite Hs. simpl. rewrite Hf. by exists tt.
Qed.

Lemma check_call_has_asset c statFn args str :
  check_call c = Some (statFn, args, str) -> is_Some (check_asset c).
Proof.
  destruct c as [ip|pm|user|email]; simpl; eauto.
  destruct (creditCardInfo pm); [eauto | done].
Qed.

Lemma start_all_some_rejects {A} (calls : list (M A)) (call : M A) w :
  call ∈ calls -> (forall w0, exists e, (call w0).1 = Rejected e) ->
  exists ps w', start_all calls w = (Resolved ps, w') /\ rejections ps <> [].
Proof.
  intros Hin Hrejects. revert w.
  induction calls as [|call0 calls IH]; intros w; [inversion Hin|].
  simpl. unfold bind, start, ret.
  apply elem_of_cons in Hin as [<-|Hin].
  - destruct (Hrejects w) as [e He]. destruct (call w) as [o w1]. simpl in He. subst o.
    destruct (start_all_total calls w1) as (ps & w' & ->). by eexists _, _.
  - destruct (call0 w) as [o w1]. destruct (IH Hin w1) as (ps & w' & -> & Hrej).
    eexists _, _. split; [done|]. simpl. by destruct o.
Qed.

(** X4: a limit list that [JSON.parse] cannot read blocks the order whatever
    the enforcement flag.  The parse is outside the [try] block: with
    enforcement disabled [validateStat] rejects at once, nothing is queried,
    logged or suspended; and [orderFraudProtection] rejects as soon as it
    selects a check whose limit list cannot be read. *)
Theorem X4_unreadable_limit_list_blocks_the_order (str : string) :
  JSON_parse str = None ->
  (ENFORCE_SUSPENDED_ASSET = false ->
   forall statFn args msg options w,
   exists e, validateStat statFn args str msg options w = (Rejected e, w)) /\
  (forall req order c statFn args w,
      c ∈ checks req order -> check_call c = Some (statFn, args, str) ->
      exists e w', orderFraudProtection req order w = (Rejected e, w')).
Proof.
  intros Hparse. split.
  - intros Hoff statFn args msg options w.
    by apply validateStat_parse_throws; [apply entry_not_enforced|].
  - intros req order c statFn args w Hin Hcall.
    destruct (check_call_has_asset _ _ _ _ Hcall) as [asset Hasset].
    destruct (run_check_call _ _ _ _ _ Hasset Hcall) as (msg & options & Hrun & _).
    unfold orderFraudProtection.
    destruct (start_all_some_rejects (run_check <$> checks req order) (run_check c) w)
      as (ps & w' & Hstart & Hrej).
    { by apply list_elem_of_fmap_2. }
    { intros w0. rewrite Hrun.
      destruct (entry options w0) as [[[]|e] w1] eqn:Hentry.
      - destruct (validateStat_parse_throws statFn args str msg options w0 w1 Hentry Hparse)
          as [e ->]. by exists e.
      - rewrite (validateStat_entry_rejects _ _ _ _ _ _ _ _ Hentry). by exists e. }
    unfold bind at 1. rewrite Hstart. unfold bind, await.
    apply Promise_all_rejects_iff in Hrej as [e ->]. by eexists _, _.
Qed.

Lemma validateStat_grows_after_entry statFn args str msg options asset w :
  (forall error, on_fail options error = SuspendedAsset_create asset (message error)) ->
  grows (entry options w).2 (validateStat statFn args str msg options w).2.
Proof.
  intros Hfail.
  destruct (entry options w) as [[[]|e] w1] eqn:Hentry; cbn [snd].
  - destruct (JSON_parse str) as [rules|] eqn:Hparse.
    + destruct (rejections (limit_promises statFn args rules)) as [|e0 es] eqn:Hrej.
      * rewrite (validateStat_passes _ _ _ msg _ _ _ _ Hentry Hparse Hrej).
        apply grows_emits.
      * rewrite (validateStat_fails _ _ _ msg _ _ _ _ _ _ Hentry Hparse Hrej).
        cbn [snd]. rewrite Hfail.
        eapply grows_trans; [apply grows_emits | apply create_grows].
    + destruct (validateStat_parse_throws statFn args _ msg _ _ _ Hentry Hparse) as [e ->].
      apply grows_refl.
  - rewrite (validateStat_entry_rejects _ _ _ _ _ _ _ _ Hentry). apply grows_refl.
Qed.

Lemma run_check_looks_up c asset w :
  ENFORCE_SUSPENDED_ASSET = true -> check_asset c = Some asset ->
  exists later, trace (run_check c w).2 = trace w ++ StoreLookup asset :: later.
Proof.
  intros Hon Hasset.
  assert (Hany : forall statFn args str msg options,
             preCheck options = None -> assetParams options = Some asset ->
             (forall error, on_fail options error
                            = SuspendedAsset_create (Some asset) (message error)) ->
             exists later, trace (validateStat statFn args str msg options w).2
                           = trace w ++ StoreLookup asset :: later).
  { intros statFn args str msg options Hpre Hparams Hfail.
    destruct (validateStat_grows_after_entry statFn args str msg options _ w Hfail)
      as (_ & _ & [later Hlater]).
    rewrite (entry_lookup _ _ _ Hon Hpre Hparams) in Hlater. cbn [snd emit emits trace] in Hlater.
    exists later. by rewrite Hlater, <- app_assoc. }
  destruct c as [ip|pm|user|email]; simpl in *.
  - injection Hasset as <-. by apply Hany.
  - unfold checkCreditCard. destruct (creditCardInfo pm) as [info|]; [|done].
    injection Hasset as <-. by apply Hany.
  - injection Hasset as <-. by apply Hany.
  - injection Hasset as <-. by apply Hany.
Qed.

Lemma start_all_looks_up cs c asset w :
  ENFORCE_SUSPENDED_ASSET = true -> c ∈ cs -> check_asset c = Some asset ->
  exists before later,
    trace (start_all (run_check <$> cs) w).2 = trace w ++ before ++ StoreLookup asset :: later.
Proof.
  intros Hon Hin Hasset. revert w.
  induction cs as [|c0 cs IH]; intros w; [inversion Hin|].
  cbn [fmap list_fmap]. rewrite start_all_cons_world.
  apply elem_of_cons in Hin as [<-|Hin].
  - destruct (run_check_looks_up c asset w Hon Hasset) as [later Hlater].
    destruct (start_all_grows cs (run_check c w).2) as (_ & _ & [more Hmore]).
    exists [], (later ++ more). rewrite Hmore, Hlater. by rewrite <- app_assoc.
  - destruct (run_check_grows c0 w) as (_ & _ & [first Hfirst]).
    destruct (IH Hin (run_check c0 w).2) as (before & later & Hrun).
    exists (first ++ before), later. rewrite Hrun, Hfirst. by rewrite <- !app_assoc.
Qed.

(** X5: the gate does not stop at the first rejection.  Under enforcement
    every selected check consults the store for its own asset during the
    run of [orderFraudProtection], also when an earlier check has already
    rejected. *)
Theorem X5_every_selected_check_runs (req : Request) (order : Order) (w : World) :
  ENFORCE_SUSPENDED_ASSET = true ->
  forall c asset, c ∈ checks req order -> check_asset c = Some asset ->
  exists before later,
    trace (orderFraudProtection req order w).2
    = trace w ++ before ++ StoreLookup asset :: later.
Proof.
  intros Hon c asset Hin Hasset. rewrite orderFraudProtection_world.
  by apply (start_all_looks_up _ c).
Qed.

(** X6: an order that carries no identity is not screened.  The [checks]
    array is empty exactly when the request has no (non-empty) IP and no
    [remoteUser] and the order has no [creditCardInfo] and no (non-empty)
    guest email; [orderFraudProtection] then resolves and leaves the world
    as it is. *)
Theorem X6_order_without_identity_is_not_screened (req : Request) (order : Order) :
  (checks req order = [] <->
   truthy (ip req) = false /\
   (forall pm, paymentMethod order = Some pm -> creditCardInfo pm = None) /\
   remoteUser req = None /\
   truthy (guestInfo order ≫= email) = false) /\
  (checks req order = [] ->
   forall w, orderFraudProtection req order w = (Resolved tt, w)).
Proof.
  split.
  - unfold checks. split.
    + intros Hnil. apply app_eq_nil in Hnil as [Hip Hrest].
      apply app_eq_nil in Hrest as [Hcard Hwho].
      split; [by destruct (truthy (ip req))|]. split.
      * intros pm Hpm. rewrite Hpm in Hcard. by destruct (creditCardInfo pm).
      * destruct (remoteUser req); [done|]. split; [done|].
        by destruct (truthy (guestInfo order ≫= email)).
    + intros (-> & Hcard & -> & ->). simpl.
      destruct (paymentMethod order) as [pm|]; [|done]. by rewrite (Hcard pm eq_refl).
  - intros Hnil w. unfold orderFraudProtection. by rewrite Hnil.
Qed.

Lemma check_asset_has_call c : is_Some (check_asset c) -> is_Some (check_call c).
Proof.
  destruct c as [ip0|pm|user|email0]; simpl; try by eauto.
  destruct (creditCardInfo pm); simpl; [eauto | by intros [? ?]].
Qed.

Lemma unreadable_check_rejects c statFn args str w :
  check_call c = Some (statFn, args, str) -> JSON_parse str = None ->
  exists e, (run_check c w).1 = Rejected e.
Proof.
  intros Hcall Hparse.
  destruct (check_call_has_asset _ _ _ _ Hcall) as [asset Hasset].
  destruct (run_check_call _ _ _ _ _ Hasset Hcall) as (msg & options & Hrun & _).
  rewrite Hrun. destruct (entry options w) as [[[]|e] w1] eqn:Hentry.
  - destruct (validateStat_parse_throws statFn args str msg options w w1 Hentry Hparse)
      as [e ->]. by exists e.
  - rewrite (validateStat_entry_rejects _ _ _ _ _ _ _ _ Hentry). by exists e.
Qed.

Lemma readable_or_not (cs : list Check) :
  (forall c statFn args str, c ∈ cs -> check_call c = Some (statFn, args, str) ->
     is_Some (JSON_parse str)) \/
  (exists c statFn args str, c ∈ cs /\ check_call c = Some (statFn, args, str) /\
     JSON_parse str = None).
Proof.
  induction cs as [|c cs [IH|IH]].
  - left. intros c statFn args str Hin. inversion Hin.
  - destruct (check_call c) as [[[statFn args] str]|] eqn:Hcall.
    + destruct (JSON_parse str) as [rules|] eqn:Hparse.
      * left. intros c' statFn' args' str' Hin Hcall'.
        apply elem_of_cons in Hin as [->|Hin]; [|by eapply IH].
        rewrite Hcall in Hcall'. injection Hcall' as <- <- <-. by rewrite Hparse.
      * right. exists c, statFn, args, str. split; [left|done].
    + left. intros c' statFn' args' str' Hin Hcall'.
      apply elem_of_cons in Hin as [->|Hin]; [congruence | by eapply IH].
  - right. destruct IH as (c' & statFn & args & str & Hin & Hrest).
    exists c', statFn, args, str. split; [by right | done].
Qed.

(** X11: without enforcement only an unreadable limit list blocks an order.
    When [ENFORCE_SUSPENDED_ASSET] is off, [orderFraudProtection] rejects
    if and only if the limit list of one of the selected checks cannot be
    parsed; with readable lists it resolves, whatever the statistics, the
    store and the write faults are. *)
Theorem X11_without_enforcement_only_an_unreadable_list_blocks
    (req : Request) (order : Order) (w : World) :
  ENFORCE_SUSPENDED_ASSET = false ->
  ((exists e w', orderFraudProtection req order w = (Rejected e, w')) <->
   (exists c statFn args str,
      c ∈ checks req order /\ check_call c = Some (statFn, args, str) /\
      JSON_parse str = None)) /\
  ((exists w', orderFraudProtection req order w = (Resolved tt, w')) <->
   (forall c statFn args str,
      c ∈ checks req order -> check_call c = Some (statFn, args, str) ->
      is_Some (JSON_parse str))).
Proof.
  intros Hoff.
  assert (Hbad : (exists c statFn args str,
                    c ∈ checks req order /\ check_call c = Some (statFn, args, str) /\
                    JSON_parse str = None) ->
                 exists e w', orderFraudProtection req order w = (Rejected e, w')).
  { intros (c & statFn & args & str & Hin & Hcall & Hparse).
    unfold orderFraudProtection.
    destruct (start_all_some_rejects (run_check <$> checks req order) (run_check c) w)
      as (ps & w' & Hstart & Hrej).
    { by apply list_elem_of_fmap_2. }
    { intros w0. by eapply unreadable_check_rejects. }
    unfold bind at 1. rewrite Hstart. unfold bind, await.
    apply Promise_all_rejects_iff in Hrej as [e ->]. by eexists _, _. }
  assert (Hgood : (forall c statFn args str,
                     c ∈ checks req order -> check_call c = Some (statFn, args, str) ->
                     is_Some (JSON_parse str)) ->
                  exists w', orderFraudProtection req order w = (Resolved tt, w')).
  { intros Hall. unfold orderFraudProtection.
    destruct (start_all_resolved (run_check <$> checks req order) w)
      as (ps & w' & Hrun & Hrej).
    { intros call w0 Hcall. apply list_elem_of_fmap in Hcall as (c & -> & Hc).
      destruct (in_checks_has_asset _ _ _ Hc) as [asset Hasset].
      destruct (check_asset_has_call c (ex_intro _ asset Hasset))
        as [[[statFn args] str] Hcall].
      destruct (run_check_call _ _ _ _ _ Hasset Hcall) as (msg & options & -> & _).
      destruct (Hall c statFn args str Hc Hcall) as [rules Hrules].
      by eapply validateStat_not_enforced_resolves. }
    unfold bind at 1. rewrite Hrun. unfold bind, await, ret.
    rewrite (Promise_all_resolved _ Hrej). by eexists. }
  split; split; [|exact Hbad| |exact Hgood].
  - intros (e & w' & Hrun). destruct (readable_or_not (checks req order)) as [Hall|Hsome];
      [|exact Hsome].
    destruct (Hgood Hall) as [w'' Hres]. congruence.
  - intros [w' Hrun] c statFn args str Hin Hcall.
    destruct (JSON_parse str) as [rules|] eqn:Hparse; [by eexists|].
    destruct Hbad as (e & w'' & Hrej); [by exists c, statFn, args, str|]. congruence.
Qed.







End Gate.

(** ** Fingerprints *)

Lemma lower_ascii_idempotent c : lower_ascii (lower_ascii c) = lower_ascii c.
Proof. destruct c as [[] [] [] [] [] [] [] []]; reflexivity. Qed.

Lemma same_letter_lower c d : same_letter c d = true -> lower_ascii c = lower_ascii d.
Proof.
  unfold same_letter. rewrite !orb_true_iff, !andb_true_iff, !Ascii.eqb_eq.
  intros [[->|[_ <-]]|[_ <-]]; by rewrite ?lower_ascii_idempotent.
Qed.

Lemma differ_only_in_case_toLower s : forall t,
  differ_only_in_case s t = true -> toLower s = toLower t.
Proof.
  induction s as [|c s IH]; intros [|d t]; simpl; try done.
  rewrite andb_true_iff. intros [Hcd Hst].
  by rewrite (same_letter_lower _ _ Hcd), (IH _ Hst).
Qed.

Lemma string_app_cons (x : ascii) (a b : string) : String x a +:+ b = String x (a +:+ b).
Proof. reflexivity. Qed.

Lemma string_app_assoc (a b c : string) : (a +:+ b) +:+ c = a +:+ (b +:+ c).
Proof. induction a as [|x a IH]; [done | by rewrite !string_app_cons, IH]. Qed.

Lemma string_length_app (a b : string) :
  String.length (a +:+ b) = (String.length a + String.length b)%nat.
Proof. induction a as [|x a IH]; [done | rewrite string_app_cons; simpl; by rewrite IH]. Qed.

Lemma string_to_list_app (a b : string) :
  list_ascii_of_string (a +:+ b) = list_ascii_of_string a ++ list_ascii_of_string b.
Proof. induction a as [|x a IH]; [done | rewrite string_app_cons; simpl; by rewrite IH]. Qed.

Lemma string_app_inj_r (a b s : string) : a +:+ s = b +:+ s -> a = b.
Proof.
  intros H. apply (f_equal list_ascii_of_string) in H.
  rewrite !string_to_list_app in H. apply app_inv_tail in H.
  apply (f_equal string_of_list_ascii) in H.
  by rewrite !string_of_list_ascii_of_string in H.
Qed.

Lemma string_app_not_longer (a : string) (b : ascii) (s : string) :
  s = a +:+ String b s -> False.
Proof.
  intros H. apply (f_equal String.length) in H.
  rewrite string_length_app in H. simpl in H. lia.
Qed.

Lemma join_cons (sep x y : string) (rest : list string) :
  join sep (x :: y :: rest) = x +:+ sep +:+ join sep (y :: rest).
Proof. reflexivity. Qed.

Lemma derived_fingerprint name info :
  truthy (cc_fingerprint info) = false ->
  card_fingerprint name info =
    let tail := pretty (expMonth info) +:+ "-"
                +:+ match funding info with
                    | Some f => pretty (expYear info) +:+ "-" +:+ f
                    | None => pretty (expYear info)
                    end in
    name +:+ "-" +:+ match brand info with Some b => b +:+ "-" +:+ tail | None => tail end.
Proof.
  unfold card_fingerprint, picked_values. intros ->.
  by destruct (brand info) as [b|], (funding info) as [f|].
Qed.

Lemma string_app_not_shorter (a : string) (b : ascii) (s : string) :
  a +:+ String b s = a -> False.
Proof.
  intros H. apply (f_equal String.length) in H.
  rewrite string_length_app in H. simpl in H. lia.
Qed.

(** Cancelling the common prefix of the two sides of an equation. *)
Ltac peel H :=
  repeat first
    [ apply (inj (String.app _)) in H
    | apply (inj (String "-")) in H ].

Lemma single_field_change name1 info1 name2 info2 :
  truthy (cc_fingerprint info1) = false -> truthy (cc_fingerprint info2) = false ->
  differ_in_at_most_one_field name1 info1 name2 info2 ->
  card_fingerprint name1 info1 = card_fingerprint name2 info2 ->
  fingerprint_fields name1 info1 = fingerprint_fields name2 info2.
Proof.
  intros Hno1 Hno2 Hone. rewrite !derived_fingerprint by done.
  unfold fingerprint_fields, differ_in_at_most_one_field in *.
  destruct info1 as [y1 m1 b1 t1 f1 c1], info2 as [y2 m2 b2 t2 f2 c2].
  cbn [brand expMonth expYear funding] in *. cbv zeta.
  destruct Hone as [(-> & -> & -> & ->)|[(-> & -> & -> & ->)|[(-> & -> & -> & ->)|
                   [(-> & -> & -> & ->)|(-> & -> & -> & ->)]]]]; intros H.
  - apply string_app_inj_r in H. by subst.
  - peel H. destruct b1 as [b1|], b2 as [b2|]; try done.
    + apply string_app_inj_r in H. by subst.
    + exfalso. by apply (string_app_not_longer b1 "-" _ (eq_sym H)).
    + exfalso. by apply (string_app_not_longer b2 "-" _ H).
  - destruct b2 as [b|]; peel H; apply string_app_inj_r in H;
      by apply (inj pretty) in H as ->.
  - destruct b2 as [b|], f2 as [f|]; peel H;
      try apply string_app_inj_r in H; by apply (inj pretty) in H as ->.
  - destruct b2 as [b|]; peel H; destruct f1 as [f1|], f2 as [f2|]; try done; peel H.
    all: try (by subst).
    all: exfalso; first [ by apply (string_app_not_shorter _ _ _ H)
                        | by apply (string_app_not_shorter _ _ _ (eq_sym H)) ].
Qed.


(** ** The statistics of a subject without orders *)



(** ** Further properties of the statistics *)

Lemma SUM_indicator_bounds {A} (is_error : A -> bool) (rows : list A) :
  (0 <= Sql.SUM (List.map (fun r => if is_error r then 1 else 0) rows)
   <= inject_Z (Sql.COUNT rows))%Q.
Proof.
  induction rows as [|r rows [IHl IHu]].
  - by vm_compute.
  - unfold Sql.COUNT in *. cbn [List.map Sql.SUM fold_right length].
    fold (Sql.SUM (List.map (fun r => if is_error r then 1%Q else 0%Q) rows)).
    rewrite Nat2Z.inj_succ, <- Z.add_1_r, inject_Z_plus.
    change (inject_Z 1) with 1%Q.
    generalize dependent (Sql.SUM (List.map (fun r => if is_error r then 1%Q else 0%Q) rows)).
    generalize (inject_Z (Z.of_nat (length rows))). intros n S ? ?.
    destruct (is_error r); split; lra.
Qed.

Lemma AVG_indicator_unit {A} (is_error : A -> bool) (rows : list A) :
  (0 <= Sql.COALESCE (Sql.AVG (List.map (fun r => if is_error r then 1 else 0) rows)) 0
   <= 1)%Q.
Proof.
  pose proof (SUM_indicator_bounds is_error rows) as [Hl Hu].
  destruct rows as [|r rows]; [by vm_compute|].
  remember (r :: rows) as rs eqn:Hrs.
  unfold Sql.AVG.
  destruct (List.map _ rs) as [|x xs] eqn:Hxs; [by subst rs|].
  rewrite <- Hxs in *. cbn [Sql.COALESCE].
  assert (Hcount : Sql.COUNT (List.map (fun r => if is_error r then 1%Q else 0%Q) rs)
                   = Sql.COUNT rs).
  { unfold Sql.COUNT. by rewrite length_map. }
  rewrite Hcount.
  assert (Hpos : (0 < inject_Z (Sql.COUNT rs))%Q).
  { unfold Sql.COUNT. change 0%Q with (inject_Z 0). rewrite <- Zlt_Qlt. subst rs. simpl. lia. }
  split.
  - apply Qle_shift_div_l; [done|]. by rewrite Qmult_0_l.
  - apply Qle_shift_div_r; [done|]. by rewrite Qmult_1_l.
Qed.

Lemma ROUND_unit_interval (x : Q) : (0 <= x <= 1)%Q -> (0 <= Sql.ROUND x 5 <= 1)%Q.
Proof.
  intros [Hl Hu]. unfold Sql.ROUND.
  change (inject_Z (10 ^ Z.of_nat 5)) with (inject_Z 100000).
  assert (Hscaled : (0 <= x * inject_Z 100000 <= inject_Z 100000)%Q).
  { change (inject_Z 100000) with (100000 # 1)%Q. split; lra. }
  destruct Hscaled as [Hsl Hsu].
  rewrite (proj2 (Qle_bool_iff 0 (x * inject_Z 100000)) Hsl).
  assert (Hn0 : 0 <= Qfloor (x * inject_Z 100000 + (1 # 2))).
  { change 0 with (Qfloor 0). apply Qfloor_resp_le. lra. }
  assert (Hn1 : Qfloor (x * inject_Z 100000 + (1 # 2)) <= 100000).
  { change 100000 with (Qfloor (inject_Z 100000 + (1 # 2))) at 2.
    apply Qfloor_resp_le. lra. }
  split.
  - apply Qle_shift_div_l; [done|]. rewrite Qmult_0_l.
    change 0%Q with (inject_Z 0). by rewrite <- Zle_Qle.
  - apply Qle_shift_div_r; [done|]. rewrite Qmult_1_l. by rewrite <- Zle_Qle.
Qed.

Lemma length_remove_dups_le (l : list string) : (length (remove_dups l) <= length l)%nat.
Proof.
  induction l as [|x l IH]; simpl; [done|].
  destruct (decide_rel elem_of x l); simpl; lia.
Qed.

Lemma length_remove_dups_pos (l : list string) : l <> [] -> (0 < length (remove_dups l))%nat.
Proof.
  destruct l as [|x l]; [done|]. intros _.
  assert (Hin : x ∈ remove_dups (x :: l)) by (apply elem_of_remove_dups; left).
  destruct (remove_dups (x :: l)); [inversion Hin | simpl; lia].
Qed.

(** X7: whatever the matching rows are, the one row of [BASE_STATS_QUERY]
    holds a count and two rates: [numberOfOrders] is the number of rows,
    [errorRate] and [paymentMethodRate] lie between 0 and 1.  With at least
    one row [paymentMethodRate] is positive, and with exactly one row it is
    1: a limit on it that is at most 1 is always reached by a first order. *)
Theorem X7_statistics_are_counts_and_rates (rows : list JoinedRow) :
  exists row,
    BASE_STATS_QUERY rows = [row] /\
    (0 <= errorRate row <= 1)%Q /\
    numberOfOrders row = inject_Z (Z.of_nat (length rows)) /\
    (0 <= paymentMethodRate row <= 1)%Q /\
    (rows <> [] -> (0 < paymentMethodRate row)%Q) /\
    (length rows = 1%nat -> (paymentMethodRate row == 1)%Q).
Proof.
  eexists. split; [reflexivity|]. cbn [errorRate numberOfOrders paymentMethodRate].
  split; [|split; [done|]].
  - apply ROUND_unit_interval.
    apply (AVG_indicator_unit (fun r : JoinedRow => Sql.eq_col (o_status r.1) "ERROR")).
  - set (names := List.map _ rows).
    assert (Hnames : length names = length rows) by (unfold names; by rewrite length_map).
    unfold Sql.COUNT_DISTINCT, Sql.COUNT, Sql.NULLIF.
    destruct rows as [|r rows].
    { split; [by vm_compute|]. split; [done|]. simpl. lia. }
    assert (Hd1 : (0 < length (remove_dups names))%nat).
    { apply length_remove_dups_pos. unfold names. done. }
    assert (Hd2 : (length (remove_dups names) <= length (r :: rows))%nat).
    { rewrite <- Hnames. apply length_remove_dups_le. }
    replace (Z.of_nat (length (r :: rows)) =? 0) with false
      by (symmetry; apply Z.eqb_neq; simpl; lia).
    cbn [Sql.div Sql.COALESCE].
    assert (Hpos : (0 < inject_Z (Z.of_nat (length (r :: rows))))%Q).
    { change 0%Q with (inject_Z 0). rewrite <- Zlt_Qlt. simpl. lia. }
    split; [split|split].
    + apply Qle_shift_div_l; [done|]. rewrite Qmult_0_l.
      change 0%Q with (inject_Z 0). rewrite <- Zle_Qle. lia.
    + apply Qle_shift_div_r; [done|]. rewrite Qmult_1_l. rewrite <- Zle_Qle. lia.
    + intros _. apply Qlt_shift_div_l; [done|]. rewrite Qmult_0_l.
      change 0%Q with (inject_Z 0). rewrite <- Zlt_Qlt. lia.
    + intros Hone. replace (length (remove_dups names)) with 1%nat by lia.
      rewrite Hone. by vm_compute.
Qed.

Section StatisticsFacts.

Context (NOW : Z) (INTERVAL : string -> Z) (LIKE : string -> string -> bool).







Lemma LEFT_JOIN_app {A B} (on : A -> B -> bool) (l1 l2 : list A) (r : list B) :
  Sql.LEFT_JOIN on (l1 ++ l2) r = Sql.LEFT_JOIN on l1 r ++ Sql.LEFT_JOIN on l2 r.
Proof. apply flat_map_app. Qed.

Lemma LEFT_JOIN_left {A B} (on : A -> B -> bool) (l : list A) (r : list B) x :
  In x (Sql.LEFT_JOIN on l r) -> In x.1 l.
Proof.
  unfold Sql.LEFT_JOIN. rewrite in_flat_map. intros (a & Ha & Hx).
  destruct (List.filter (on a) r) as [|b bs] eqn:Hmatches.
  - by destruct Hx as [<-|[]].
  - apply in_map_iff in Hx as (b' & <- & _). done.
Qed.

Lemma LEFT_JOIN_right {A B} (on : A -> B -> bool) (l : list A) (r : list B) a b :
  In (a, Some b) (Sql.LEFT_JOIN on l r) -> on a b = true.
Proof.
  unfold Sql.LEFT_JOIN. rewrite in_flat_map. intros (a' & Ha & Hx).
  destruct (List.filter (on a') r) as [|b' bs] eqn:Hmatches.
  - by destruct Hx as [|[]].
  - rewrite <- Hmatches in Hx. apply in_map_iff in Hx as (b'' & [= -> ->] & Hb).
    by apply filter_In in Hb as [_ Hb].
Qed.

Lemma filter_none {A} (p : A -> bool) (l : list A) :
  (forall x, In x l -> p x = false) -> List.filter p l = [].
Proof.
  induction l as [|x l IH]; [done|]. intros Hall. simpl.
  rewrite (Hall x) by (by left). apply IH. intros y Hy. apply Hall. by right.
Qed.

Lemma filter_skip {A} (p : A -> bool) (l m k : list A) :
  (forall x, In x m -> p x = false) ->
  List.filter p (l ++ m ++ k) = List.filter p (l ++ k).
Proof. intros Hm. by rewrite !List.filter_app, (filter_none p m Hm). Qed.

Lemma orders_pm_split (before after : list OrderRow) (o : OrderRow) pms users :
  orders_pm {| Orders := before ++ o :: after; PaymentMethods := pms; Users := users |}
  = orders_pm {| Orders := before; PaymentMethods := pms; Users := users |}
    ++ orders_pm {| Orders := [o]; PaymentMethods := pms; Users := users |}
    ++ orders_pm {| Orders := after; PaymentMethods := pms; Users := users |}.
Proof.
  unfold orders_pm. cbn [Orders PaymentMethods].
  change (o :: after) with ([o] ++ after). by rewrite !LEFT_JOIN_app.
Qed.

Lemma orders_pm_app (before after : list OrderRow) pms users :
  orders_pm {| Orders := before ++ after; PaymentMethods := pms; Users := users |}
  = orders_pm {| Orders := before; PaymentMethods := pms; Users := users |}
    ++ orders_pm {| Orders := after; PaymentMethods := pms; Users := users |}.
Proof. unfold orders_pm. cbn [Orders PaymentMethods]. by rewrite !LEFT_JOIN_app. Qed.

(** A joined row of an order that is soft-deleted, or that has no payment
    method, fails the two conditions every statistics query has. *)
Lemma row_not_counted (o : OrderRow) pms users (r : JoinedRow) :
  o_deletedAt o <> None \/ o_PaymentMethodId o = None ->
  In r (orders_pm {| Orders := [o]; PaymentMethods := pms; Users := users |}) ->
  Sql.IS_NULL (o_deletedAt r.1) && Sql.eq_col (pm_col p_type r) "creditcard" = false.
Proof.
  intros Ho Hr. pose proof (LEFT_JOIN_left _ _ _ _ Hr) as Hfst.
  destruct Hfst as [Hfst|[]]. destruct r as [o' pm]. simpl in Hfst. subst o'.
  destruct Ho as [Hdel|Hunpaid].
  - simpl. by destruct (o_deletedAt o).
  - destruct pm as [pm|]; [|by rewrite andb_false_r].
    apply LEFT_JOIN_right in Hr. by rewrite Hunpaid in Hr.
Qed.

(** X9: an order that is soft-deleted ([deletedAt] set) or that has no
    payment method changes none of the four statistics: the database with
    the order and the database without it give the same result for every
    subject and interval. *)
Theorem X9_deleted_and_unpaid_orders_are_not_counted
    (before after : list OrderRow) (o : OrderRow) pms users (interval : option string) :
  o_deletedAt o <> None \/ o_PaymentMethodId o = None ->
  let db := {| Orders := before ++ o :: after; PaymentMethods := pms; Users := users |} in
  let db' := {| Orders := before ++ after; PaymentMethods := pms; Users := users |} in
  (forall user, getUserStats db NOW INTERVAL user interval
                = getUserStats db' NOW INTERVAL user interval) /\
  (forall email, getEmailStats db NOW INTERVAL LIKE email interval
                 = getEmailStats db' NOW INTERVAL LIKE email interval) /\
  (forall ip, getIpStats db NOW INTERVAL LIKE ip interval
              = getIpStats db' NOW INTERVAL LIKE ip interval) /\
  (forall name info, getCreditCardStats db NOW INTERVAL name info interval
                     = getCreditCardStats db' NOW INTERVAL name info interval).
Proof.
  intros Ho db db'.
  pose proof (row_not_counted o pms users) as Hrow.
  split; [|split; [|split]].
  - intros user. unfold getUserStats, user_rows. do 2 f_equal.
    unfold db, db'. rewrite orders_pm_split, orders_pm_app. apply filter_skip.
    intros r Hr. specialize (Hrow r Ho Hr). apply andb_false_iff in Hrow as [->| ->];
      by rewrite ?andb_false_r.
  - intros email. unfold getEmailStats, email_rows. do 3 f_equal.
    unfold db, db'. cbn [Users]. rewrite orders_pm_split, orders_pm_app, !LEFT_JOIN_app.
    apply filter_skip.
    intros r Hr. apply LEFT_JOIN_left in Hr. specialize (Hrow r.1 Ho Hr).
    apply andb_false_iff in Hrow as [->| ->]; by rewrite ?andb_false_r.
  - intros ip. unfold getIpStats, ip_rows. do 2 f_equal.
    unfold db, db'. rewrite orders_pm_split, orders_pm_app. apply filter_skip.
    intros r Hr. specialize (Hrow r Ho Hr). apply andb_false_iff in Hrow as [->| ->];
      by rewrite ?andb_false_r.
  - intros name info. unfold getCreditCardStats, card_rows. do 2 f_equal.
    unfold db, db'. rewrite orders_pm_split, orders_pm_app. apply filter_skip.
    intros r Hr. specialize (Hrow r Ho Hr). apply andb_false_iff in Hrow as [->| ->];
      by rewrite ?andb_false_r.
Qed.


Lemma filter_map_swap {A B} (p : B -> bool) (f : A -> B) (l : list A) :
  List.filter p (List.map f l) = List.map f (List.filter (fun x => p (f x)) l).
Proof.
  induction l as [|x l IH]; [done|]. simpl. destruct (p (f x)); simpl; by rewrite IH.
Qed.

Lemma LEFT_JOIN_map_right {A B} (on : A -> B -> bool) (h : B -> B) (l : list A) (r : list B) :
  (forall a b, on a (h b) = on a b) ->
  Sql.LEFT_JOIN on l (List.map h r)
  = List.map (fun x => (x.1, h <$> x.2)) (Sql.LEFT_JOIN on l r).
Proof.
  intros Hon. unfold Sql.LEFT_JOIN. induction l as [|a l IH]; [done|].
  cbn [flat_map]. rewrite List.map_app, IH. f_equal.
  rewrite filter_map_swap, (filter_ext _ (on a)) by (intros b; apply Hon).
  destruct (List.filter (on a) r) as [|b bs]; [done|].
  cbn [List.map]. f_equal. rewrite !List.map_map. done.
Qed.

Lemma toLower_idempotent (s : string) : toLower (toLower s) = toLower s.
Proof.
  induction s as [|c s IH]; [done|]. simpl. by rewrite lower_ascii_idempotent, IH.
Qed.

(** X10: the statistics of an email address do not depend on letter case,
    neither in the address asked for nor in the addresses stored: both
    sides of the [LIKE] go through [LOWER].  Two addresses that differ only
    in case, against user tables that differ only in the case of the stored
    addresses, give the same statistics. *)
Theorem X10_email_statistics_ignore_letter_case
    (orders : list OrderRow) pms (users : list UserRow) (recase : string -> string)
    (email1 email2 : string) (interval : option string) :
  differ_only_in_case email1 email2 = true ->
  (forall e, toLower (recase e) = toLower e) ->
  let db := {| Orders := orders; PaymentMethods := pms; Users := users |} in
  let db' := {| Orders := orders; PaymentMethods := pms;
                Users := List.map (fun u => {| u_id := u_id u;
                                                u_email := recase <$> u_email u |}) users |} in
  getEmailStats db NOW INTERVAL LIKE email1 interval
  = getEmailStats db' NOW INTERVAL LIKE email2 interval.
Proof.
  intros Hcase Hrecase db db'. unfold getEmailStats, email_rows. do 2 f_equal.
  unfold db'. cbn [Users]. rewrite LEFT_JOIN_map_right by done.
  rewrite filter_map_swap, List.map_map. cbn [fst]. f_equal.
  apply filter_ext. intros [r u]. cbn [fst snd].
  rewrite (differ_only_in_case_toLower _ _ Hcase). do 3 f_equal.
  destruct u as [[uid [e|]]|]; simpl; by rewrite ?Hrecase.
Qed.

(** X12: the statistics of a card and the asset a card is suspended under
    do not identify cards by the same fields.  The query reads the name,
    the expiry and the country only, so two cards that agree on these have
    the same statistics; yet when they differ in brand their derived
    fingerprints differ, and the suspension of one is not the suspension
    of the other. *)
Theorem X12_card_statistics_ignore_brand_and_funding
    (db : Database) (name : string) (info1 info2 : CreditCardInfo)
    (interval : option string) :
  expYear info1 = expYear info2 -> expMonth info1 = expMonth info2 ->
  country info1 = country info2 ->
  getCreditCardStats db NOW INTERVAL name info1 interval
  = getCreditCardStats db NOW INTERVAL name info2 interval /\
  (truthy (cc_fingerprint info1) = false -> truthy (cc_fingerprint info2) = false ->
   funding info1 = funding info2 -> brand info1 <> brand info2 ->
   card_fingerprint name info1 <> card_fingerprint name info2).
Proof.
  intros Hyear Hmonth Hcountry. split.
  - unfold getCreditCardStats, card_rows. by rewrite Hyear, Hmonth, Hcountry.
  - intros Hno1 Hno2 Hfunding Hbrand Hsame. apply Hbrand.
    apply single_field_change in Hsame; [|done|done|].
    + unfold fingerprint_fields in Hsame. congruence.
    + right. left. done.
Qed.

End StatisticsFacts.

(** ** The loaders *)

Section LoaderFacts.

Import Loaders.

Lemma prop_inj (a b : Z) : prop a = prop b -> a = b.
Proof. apply (inj pretty). Qed.

(** *** [Collective.host] *)

Lemma resultsById_snoc {Collective} (results : list (HostResult Collective)) result :
  resultsById (results ++ [result])
  = <[prop (hr_id result) := hr_host result]> (resultsById results).
Proof. unfold resultsById. by rewrite foldl_app. Qed.

Lemma resultsById_lookup {Collective} (results : list (HostResult Collective)) (id : Z) :
  resultsById results !! prop id
  = hr_host <$> last (List.filter (fun r => bool_decide (hr_id r = id)) results).
Proof.
  induction results as [|result results IH] using rev_ind; [done|].
  rewrite resultsById_snoc, List.filter_app. cbn [List.filter].
  destruct (decide (hr_id result = id)) as [->|Hne].
  - rewrite bool_decide_eq_true_2 by done. by rewrite lookup_insert_eq, last_snoc.
  - rewrite bool_decide_eq_false_2 by done. rewrite lookup_insert_ne, app_nil_r; [done|].
    intros Heq. by apply prop_inj in Heq.
Qed.

Lemma filter_unique {A} (p : A -> bool) (f : A -> Z) (l : list A) (x : A) :
  NoDup (f <$> l) -> x ∈ l -> (forall y, p y = true <-> f y = f x) ->
  List.filter p l = [x].
Proof.
  intros Hnodup Hin Hp. induction l as [|y l IH]; [inversion Hin|].
  rewrite fmap_cons in Hnodup. apply NoDup_cons in Hnodup as [Hy Hnodup].
  cbn [List.filter]. apply elem_of_cons in Hin as [<-|Hin].
  - rewrite (proj2 (Hp x) eq_refl). f_equal.
    apply filter_none. intros z Hz. apply not_true_is_false. intros Hpz.
    apply Hp in Hpz. apply Hy. rewrite <- Hpz. apply list_elem_of_fmap_2.
    by apply list_elem_of_In.
  - destruct (p y) eqn:Hpy; [|by apply IH].
    apply Hp in Hpy. exfalso. apply Hy. rewrite Hpy. by apply list_elem_of_fmap_2.
Qed.

(** X13: [Collective.host] answers key by key.  The batch function returns
    one entry per requested id, in the order of the ids; the entry of an id
    is the host of the last row with that id, and [null] when no row has
    the id or the collective has no host.  When the rows have distinct ids,
    as rows selected by primary key have, every row's host is at every
    position that asks for the row's id. *)
Theorem X13_host_results_follow_the_keys {Collective}
    (ids : list Z) (results : list (HostResult Collective)) :
  length (host ids results) = length ids /\
  (forall i id, ids !! i = Some id ->
     host ids results !! i
     = Some (last (List.filter (fun r => bool_decide (hr_id r = id)) results) ≫= hr_host)) /\
  (forall i id, ids !! i = Some id -> (forall r, r ∈ results -> hr_id r <> id) ->
     host ids results !! i = Some None) /\
  (NoDup (hr_id <$> results) ->
   forall i r, r ∈ results -> ids !! i = Some (hr_id r) ->
     host ids results !! i = Some (hr_host r)).
Proof.
  assert (Hat : forall i id, ids !! i = Some id ->
            host ids results !! i
            = Some (last (List.filter (fun r => bool_decide (hr_id r = id)) results)
                    ≫= hr_host)).
  { intros i id Hid. unfold host. rewrite list_lookup_fmap, Hid. cbn [fmap option_fmap option_map].
    rewrite resultsById_lookup. by destruct (last _). }
  split; [|split; [|split]].
  - unfold host. by rewrite length_fmap.
  - exact Hat.
  - intros i id Hid Hnone. rewrite (Hat i id Hid).
    rewrite filter_none; [done|].
    intros r Hr. apply bool_decide_eq_false_2, Hnone. by apply list_elem_of_In.
  - intros Hnodup i r Hr Hid. rewrite (Hat i _ Hid).
    rewrite (filter_unique _ hr_id results r Hnodup Hr); [done|].
    intros y. by rewrite bool_decide_eq_true.
Qed.

(** *** [Tier.contributorsStats] *)

(** The statistics object of a tier after the rows [results]. *)
Lemma add_count_lookup resultsMap row (tierId : Z) :
  default (getDefaultStats tierId) (add_count resultsMap row !! prop tierId)
  = let stats := default (getDefaultStats tierId) (resultsMap !! prop tierId) in
    if bool_decide (mc_TierId row = tierId)
    then <["all" := default 0 (<[mc_type row := mc_count row]> stats !! "all")
                    + mc_count row]> (<[mc_type row := mc_count row]> stats)
    else stats.
Proof.
  unfold add_count. cbv zeta. destruct (decide (mc_TierId row = tierId)) as [->|Hne].
  - rewrite bool_decide_eq_true_2 by done. by rewrite lookup_insert_eq.
  - rewrite bool_decide_eq_false_2 by done. rewrite lookup_insert_ne; [done|].
    intros Heq. by apply prop_inj in Heq.
Qed.

Lemma contributorsStats_lookup tiersIds results i tierId :
  tiersIds !! i = Some tierId ->
  contributorsStats tiersIds results !! i
  = Some (default (getDefaultStats tierId) (foldl add_count ∅ results !! prop tierId)).
Proof. intros Hid. unfold contributorsStats. by rewrite list_lookup_fmap, Hid. Qed.

Lemma no_rows_no_entry results (tierId : Z) :
  (forall row, row ∈ results -> mc_TierId row <> tierId) ->
  foldl add_count ∅ results !! prop tierId = None.
Proof.
  induction results as [|row results IH] using rev_ind; intros Hnone; [done|].
  rewrite foldl_app. cbn [foldl]. unfold add_count. rewrite lookup_insert_ne.
  - apply IH. intros r Hr. apply Hnone, elem_of_app. by left.
  - intros Heq. apply prop_inj in Heq. apply (Hnone row); [|done].
    apply elem_of_app. right. by left.
Qed.

Lemma all_lookup results (tierId : Z) :
  (forall row, row ∈ results -> mc_type row <> "all") ->
  default (getDefaultStats tierId) (foldl add_count ∅ results !! prop tierId) !! "all"
  = Some (foldr Z.add 0
            ((fun row => if bool_decide (mc_TierId row = tierId) then mc_count row else 0)
               <$> results)).
Proof.
  induction results as [|row results IH] using rev_ind; intros Htypes; [done|].
  rewrite foldl_app. cbn [foldl]. rewrite add_count_lookup. cbv zeta.
  rewrite fmap_app, foldr_app. cbn [fmap list_fmap foldr].
  assert (IH' := IH (fun r Hr => Htypes r (proj2 (elem_of_app _ _ _) (or_introl Hr)))).
  assert (Hsum : forall (x : Z) (l : list Z), foldr Z.add x l = foldr Z.add 0 l + x).
  { intros x l. induction l as [|y l IHl]; simpl; lia. }
  rewrite Hsum. destruct (decide (mc_TierId row = tierId)) as [Heq|Hne].
  - rewrite !bool_decide_eq_true_2 by done. rewrite lookup_insert_eq.
    rewrite lookup_insert_ne, IH'; [simpl; f_equal; lia|].
    apply (Htypes row), elem_of_app. right. by left.
  - rewrite !bool_decide_eq_false_2 by done. rewrite IH'. f_equal. lia.
Qed.

Lemma type_lookup results (tierId : Z) row :
  NoDup ((fun r => (mc_TierId r, mc_type r)) <$> results) ->
  (forall r, r ∈ results -> mc_type r <> "all") ->
  row ∈ results -> mc_TierId row = tierId ->
  default (getDefaultStats tierId) (foldl add_count ∅ results !! prop tierId) !! mc_type row
  = Some (mc_count row).
Proof.
  induction results as [|r results IH] using rev_ind; intros Hnodup Htypes Hin Htier;
    [inversion Hin|].
  rewrite foldl_app. cbn [foldl]. rewrite add_count_lookup. cbv zeta.
  rewrite fmap_app in Hnodup. apply NoDup_app in Hnodup as (Hnodup & Hlast & _).
  assert (Hrow : mc_type row <> "all") by (by apply Htypes).
  apply elem_of_app in Hin as [Hin|Hin].
  - assert (IH' := IH Hnodup (fun r0 Hr0 => Htypes r0 (proj2 (elem_of_app _ _ _) (or_introl Hr0)))
                      Hin Htier).
    destruct (decide (mc_TierId r = tierId)) as [Heq|Hne].
    + rewrite bool_decide_eq_true_2 by done.
      rewrite lookup_insert_ne by done. rewrite lookup_insert_ne; [done|].
      intros Hsame. apply (Hlast (mc_TierId row, mc_type row)).
      * by apply (list_elem_of_fmap_2 (fun r => (mc_TierId r, mc_type r))).
      * rewrite <- Hsame, Htier, <- Heq. by left.
    + by rewrite bool_decide_eq_false_2 by done.
  - apply list_elem_of_singleton in Hin as ->.
    rewrite bool_decide_eq_true_2 by done.
    rewrite lookup_insert_ne by done. by rewrite lookup_insert_eq.
Qed.

(** X14: [Tier.contributorsStats] counts per tier.  One statistics object
    per requested tier, in key order; a tier without rows gets the default
    object with all counters at zero; otherwise, no member type being
    called "all", the [all] counter is the sum of the counts of the tier's
    rows, and, the rows being grouped by tier and type, each type of the
    tier carries the count of its row. *)
Theorem X14_contributors_stats_sum_the_rows
    (tiersIds : list Z) (results : list MemberCount) :
  length (contributorsStats tiersIds results) = length tiersIds /\
  (forall i tierId, tiersIds !! i = Some tierId ->
     (forall row, row ∈ results -> mc_TierId row <> tierId) ->
     contributorsStats tiersIds results !! i = Some (getDefaultStats tierId)) /\
  ((forall row, row ∈ results -> mc_type row <> "all") ->
   forall i tierId, tiersIds !! i = Some tierId ->
   exists stats,
     contributorsStats tiersIds results !! i = Some stats /\
     stats !! "all"
     = Some (foldr Z.add 0
               ((fun row => if bool_decide (mc_TierId row = tierId) then mc_count row else 0)
                  <$> results)) /\
     (NoDup ((fun r => (mc_TierId r, mc_type r)) <$> results) ->
      forall row, row ∈ results -> mc_TierId row = tierId ->
        stats !! mc_type row = Some (mc_count row))).
Proof.
  split; [|split].
  - unfold contributorsStats. by rewrite length_fmap.
  - intros i tierId Hid Hnone. rewrite (contributorsStats_lookup _ _ _ _ Hid).
    by rewrite no_rows_no_entry.
  - intros Htypes i tierId Hid. eexists. split; [by apply contributorsStats_lookup|].
    split; [by apply all_lookup|].
    intros Hnodup row Hrow Htier. by apply type_lookup.
Qed.

(** *** Keys made of two numbers *)

(** The decimal rendering of a natural number holds no dash and is not
    empty, so the first dash after a leading sign separates the two
    numbers of a key. *)
Lemma string_app_nil_l (s : string) : "" +:+ s = s.
Proof. reflexivity. Qed.

Lemma no_dash_cons (c : ascii) (s : string) :
  c <> "-"%char -> (forall a b, s <> a +:+ String "-" b) ->
  forall a b, String c s <> a +:+ String "-" b.
Proof.
  intros Hc Hs [|c' a] b; rewrite ?string_app_nil_l, ?string_app_cons; intros Heq.
  - injection Heq as -> _. done.
  - injection Heq as _ Heq. by apply (Hs a b).
Qed.

Lemma pretty_N_char_no_dash (x : N) : pretty_N_char x <> "-"%char.
Proof. unfold pretty_N_char. by repeat case_match. Qed.

Lemma pretty_N_go_no_dash (x : N) (s : string) :
  (forall a b, s <> a +:+ String "-" b) ->
  forall a b, pretty_N_go x s <> a +:+ String "-" b.
Proof.
  revert s. induction (N.lt_wf_0 x) as [x _ IH]. intros s Hs.
  assert (x = 0 \/ 0 < x)%N as [->|Hpos] by lia.
  - by rewrite pretty_N_go_0.
  - rewrite pretty_N_go_step by done. apply IH; [by apply N.div_lt|].
    apply no_dash_cons; [apply pretty_N_char_no_dash | done].
Qed.

Lemma pretty_N_go_not_empty (x : N) (s : string) : s <> "" -> pretty_N_go x s <> "".
Proof.
  revert s. induction (N.lt_wf_0 x) as [x _ IH]. intros s Hs.
  assert (x = 0 \/ 0 < x)%N as [->|Hpos] by lia.
  - by rewrite pretty_N_go_0.
  - rewrite pretty_N_go_step by done. apply IH; [by apply N.div_lt | done].
Qed.

Lemma empty_no_dash (a b : string) : "" <> a +:+ String "-" b.
Proof. by destruct a. Qed.

Lemma pretty_N_no_dash (x : N) (a b : string) : pretty x <> a +:+ String "-" b.
Proof.
  unfold pretty, pretty_N. case_decide.
  - apply no_dash_cons; [done | apply empty_no_dash].
  - apply pretty_N_go_no_dash, empty_no_dash.
Qed.

Lemma pretty_N_not_empty (x : N) : pretty x <> "".
Proof.
  unfold pretty, pretty_N. case_decide; [done|].
  assert (0 < x)%N as Hpos by lia.
  rewrite pretty_N_go_step by done. by apply pretty_N_go_not_empty.
Qed.

Lemma split_at_first_dash (a1 a2 b1 b2 : string) :
  (forall a b, a1 <> a +:+ String "-" b) -> (forall a b, a2 <> a +:+ String "-" b) ->
  a1 +:+ String "-" b1 = a2 +:+ String "-" b2 -> a1 = a2 /\ b1 = b2.
Proof.
  revert a2. induction a1 as [|c a1 IH]; intros [|c' a2] H1 H2;
    rewrite ?string_app_nil_l, ?string_app_cons; intros Heq.
  - by injection Heq as ->.
  - injection Heq as <- _. exfalso. by apply (H2 "" a2).
  - injection Heq as -> _. exfalso. by apply (H1 "" a1).
  - injection Heq as -> Heq. destruct (IH a2) as [-> ->]; [| |done|done].
    + intros a b ->. apply (H1 (String c' a) b). by rewrite string_app_cons.
    + intros a b ->. apply (H2 (String c' a) b). by rewrite string_app_cons.
Qed.

(** What [pretty] gives on an integer: an optional sign, then the digits. *)
Lemma pretty_Z_sign (z : Z) :
  (exists n : N, pretty z = pretty n /\ 0 <= z) \/
  (exists n : N, pretty z = String "-" (pretty n) /\ z < 0).
Proof.
  destruct z as [|p|p].
  - left. exists 0%N. split; [done | lia].
  - left. exists (N.pos p). split; [done | lia].
  - right. exists (N.pos p). split; [done | lia].
Qed.

Lemma pair_key_inj (from1 to1 from2 to2 : Z) :
  pair_key from1 to1 = pair_key from2 to2 -> from1 = from2 /\ to1 = to2.
Proof.
  unfold pair_key. intros Heq.
  change ("-" +:+ pretty to1) with (String "-" (pretty to1)) in Heq.
  change ("-" +:+ pretty to2) with (String "-" (pretty to2)) in Heq.
  assert (Hgoal : pretty from1 = pretty from2 /\ pretty to1 = pretty to2).
  { destruct (pretty_Z_sign from1) as [(n1 & H1 & _)|(n1 & H1 & _)],
             (pretty_Z_sign from2) as [(n2 & H2 & _)|(n2 & H2 & _)];
      rewrite H1, H2 in Heq |- *; rewrite ?string_app_cons in Heq.
    - apply split_at_first_dash in Heq; [done|apply pretty_N_no_dash..].
    - exfalso. destruct (pretty n1) as [|c s] eqn:Hn1; [by apply (pretty_N_not_empty n1)|].
      rewrite string_app_cons in Heq. injection Heq as -> _.
      by apply (pretty_N_no_dash n1 "" s).
    - exfalso. destruct (pretty n2) as [|c s] eqn:Hn2; [by apply (pretty_N_not_empty n2)|].
      rewrite string_app_cons in Heq. injection Heq as <- _.
      by apply (pretty_N_no_dash n2 "" s).
    - injection Heq as Heq.
      apply split_at_first_dash in Heq as [-> ->]; [done|apply pretty_N_no_dash..]. }
  destruct Hgoal as [Hfrom Hto]. split; by apply (inj pretty).
Qed.

(** *** [Transaction.directDonationsFromTo] *)

Lemma directDonations_lookup (results : list DonationRow) (from to : Z) :
  foldl (fun (obj : gmap string (option Z)) r =>
           <[pair_key (d_FromCollectiveId r) (d_CollectiveId r) := d_totalAmount r]> obj)
        ∅ results !! pair_key from to
  = d_totalAmount
      <$> last (List.filter (fun r => bool_decide (d_FromCollectiveId r = from)
                                      && bool_decide (d_CollectiveId r = to)) results).
Proof.
  induction results as [|r results IH] using rev_ind; [done|].
  rewrite foldl_app, List.filter_app. cbn [foldl List.filter].
  destruct (decide (d_FromCollectiveId r = from /\ d_CollectiveId r = to)) as [[-> ->]|Hne].
  - rewrite !bool_decide_eq_true_2 by done. cbn [andb].
    by rewrite lookup_insert_eq, last_snoc.
  - rewrite lookup_insert_ne by (intros Heq; by apply pair_key_inj in Heq).
    rewrite IH. destruct (bool_decide (d_FromCollectiveId r = from)) eqn:Hf;
      destruct (bool_decide (d_CollectiveId r = to)) eqn:Ht; cbn [andb];
      rewrite ?app_nil_r; try done.
    apply bool_decide_eq_true in Hf, Ht. tauto.
Qed.

Lemma filter_unique_pair {A} (p : A -> bool) (f : A -> Z * Z) (l : list A) (x : A) :
  NoDup (f <$> l) -> x ∈ l -> (forall y, p y = true <-> f y = f x) ->
  List.filter p l = [x].
Proof.
  intros Hnodup Hin Hp. induction l as [|y l IH]; [inversion Hin|].
  rewrite fmap_cons in Hnodup. apply NoDup_cons in Hnodup as [Hy Hnodup].
  cbn [List.filter]. apply elem_of_cons in Hin as [<-|Hin].
  - rewrite (proj2 (Hp x) eq_refl). f_equal.
    apply filter_none. intros z Hz. apply not_true_is_false. intros Hpz.
    apply Hp in Hpz. apply Hy. rewrite <- Hpz. apply list_elem_of_fmap_2.
    by apply list_elem_of_In.
  - destruct (p y) eqn:Hpy; [|by apply IH].
    apply Hp in Hpy. exfalso. apply Hy. rewrite Hpy. by apply list_elem_of_fmap_2.
Qed.

(** X15: [Transaction.directDonationsFromTo] answers key by key.  One
    amount per key, in key order: the total of the last row whose giver and
    receiver are those of the key, and [0] when there is no such row or its
    total is [null].  Keys are told apart although they are looked up as
    strings: no two pairs of numbers have the same key string.  With rows
    grouped by giver and receiver, the amount of a key is the total of its
    row. *)
Theorem X15_direct_donations_follow_the_keys
    (keys : list DonationKey) (results : list DonationRow) :
  length (directDonationsFromTo keys results) = length keys /\
  (forall from1 to1 from2 to2,
     pair_key from1 to1 = pair_key from2 to2 -> from1 = from2 /\ to1 = to2) /\
  (forall i key, keys !! i = Some key ->
     directDonationsFromTo keys results !! i
     = Some (default 0
               (last (List.filter
                        (fun r => bool_decide (d_FromCollectiveId r = FromCollectiveId key)
                                  && bool_decide (d_CollectiveId r = CollectiveId key))
                        results)
                ≫= d_totalAmount))) /\
  (NoDup ((fun r => (d_FromCollectiveId r, d_CollectiveId r)) <$> results) ->
   forall i key r, keys !! i = Some key -> r ∈ results ->
     d_FromCollectiveId r = FromCollectiveId key -> d_CollectiveId r = CollectiveId key ->
     directDonationsFromTo keys results !! i = Some (default 0 (d_totalAmount r))).
Proof.
  assert (Hat : forall i key, keys !! i = Some key ->
     directDonationsFromTo keys results !! i
     = Some (default 0
               (last (List.filter
                        (fun r => bool_decide (d_FromCollectiveId r = FromCollectiveId key)
                                  && bool_decide (d_CollectiveId r = CollectiveId key))
                        results)
                ≫= d_totalAmount))).
  { intros i key Hkey. unfold directDonationsFromTo. cbv zeta.
    rewrite list_lookup_fmap, Hkey. cbn [fmap option_fmap option_map].
    rewrite directDonations_lookup. by destruct (last _). }
  split; [|split; [|split]].
  - unfold directDonationsFromTo. by rewrite length_fmap.
  - apply pair_key_inj.
  - exact Hat.
  - intros Hnodup i key r Hkey Hr Hfrom Hto. rewrite (Hat i key Hkey).
    rewrite (filter_unique_pair _ (fun r => (d_FromCollectiveId r, d_CollectiveId r))
               results r Hnodup Hr); [done|].
    intros y. rewrite andb_true_iff, !bool_decide_eq_true, <- Hfrom, <- Hto.
    split; [by intros [-> ->] | by intros [= -> ->]].
Qed.

(** *** [Transaction.totalAmountDonatedFromTo] *)

Lemma credit_lookup (key key' : string) (totalAmount : Z) (obj : gmap string Z) :
  default 0 (credit key' totalAmount obj !! key)
  = default 0 (obj !! key) + (if bool_decide (key = key') then totalAmount else 0).
Proof.
  unfold credit. destruct (decide (key = key')) as [->|Hne].
  - rewrite bool_decide_eq_true_2 by done. by rewrite lookup_insert_eq.
  - rewrite bool_decide_eq_false_2 by done. rewrite lookup_insert_ne by done. simpl. lia.
Qed.

(** What a row adds to the entry of the pair [(from, to)]. *)
Lemma add_donation_lookup (obj : gmap string Z) (r : GiftCardRow) (from to : Z) :
  default 0 (add_donation obj r !! pair_key from to)
  = default 0 (obj !! pair_key from to)
    + (if bool_decide (g_FromCollectiveId r = from /\ g_CollectiveId r = to)
       then g_totalAmount r else 0)
    + (if bool_decide (g_UsingGiftCardFromCollectiveId r = Some from /\ from <> 0
                       /\ g_CollectiveId r = to)
       then g_totalAmount r else 0).
Proof.
  unfold add_donation. cbv zeta. rewrite credit_lookup.
  assert (Hkey : forall a b, bool_decide (pair_key from to = pair_key a b)
                             = bool_decide (a = from /\ b = to)).
  { intros a b. apply bool_decide_ext. split.
    - intros Heq. apply pair_key_inj in Heq. by destruct Heq.
    - by intros [-> ->]. }
  rewrite Hkey.
  destruct (g_UsingGiftCardFromCollectiveId r) as [emitter|].
  - destruct (decide (emitter = 0)) as [->|Hnz].
    + rewrite bool_decide_eq_true_2 by done.
      rewrite (bool_decide_eq_false_2 (Some 0 = Some from /\ _)); [lia|].
      intros ([= <-] & Hz & _). done.
    + rewrite (bool_decide_eq_false_2 (emitter = 0)) by done.
      rewrite credit_lookup, Hkey.
      assert (Hsame : bool_decide (emitter = from /\ g_CollectiveId r = to)
                      = bool_decide (Some emitter = Some from /\ from <> 0
                                     /\ g_CollectiveId r = to)).
      { apply bool_decide_ext. split.
        - intros [<- Hto]. done.
        - intros ([= ->] & _ & Hto). done. }
      rewrite Hsame. lia.
  - rewrite (bool_decide_eq_false_2 (None = Some from /\ _)); [lia|].
    by intros [? _].
Qed.

(** X16: [Transaction.totalAmountDonatedFromTo] adds up what a collective
    gave and what was given with its gift cards.  The amount of the key
    [(from, to)] is the sum of the totals of the rows given by [from] to
    [to], plus the sum of the totals of the rows given to [to] with a gift
    card emitted by [from]; a row whose giver is also the emitter of the
    gift card is counted twice. *)
Theorem X16_total_donated_adds_gift_cards
    (keys : list DonationKey) (results : list GiftCardRow) :
  length (totalAmountDonatedFromTo keys results) = length keys /\
  (forall i key, keys !! i = Some key ->
     totalAmountDonatedFromTo keys results !! i
     = Some (foldr Z.add 0
               ((fun r => if bool_decide (g_FromCollectiveId r = FromCollectiveId key
                                          /\ g_CollectiveId r = CollectiveId key)
                          then g_totalAmount r else 0) <$> results)
             + foldr Z.add 0
                 ((fun r => if bool_decide (g_UsingGiftCardFromCollectiveId r
                                            = Some (FromCollectiveId key)
                                            /\ FromCollectiveId key <> 0
                                            /\ g_CollectiveId r = CollectiveId key)
                            then g_totalAmount r else 0) <$> results))) /\
  (forall from to amount, from <> 0 ->
     totalAmountDonatedFromTo [{| FromCollectiveId := from; CollectiveId := to |}]
       [{| g_FromCollectiveId := from; g_UsingGiftCardFromCollectiveId := Some from;
           g_CollectiveId := to; g_totalAmount := amount |}]
     = [2 * amount]).
Proof.
  assert (Hsum : forall (x : Z) (l : list Z), foldr Z.add x l = foldr Z.add 0 l + x).
  { intros x l. induction l as [|y l IHl]; simpl; lia. }
  assert (Hat : forall from to,
     default 0 (foldl add_donation ∅ results !! pair_key from to)
     = foldr Z.add 0
         ((fun r => if bool_decide (g_FromCollectiveId r = from /\ g_CollectiveId r = to)
                    then g_totalAmount r else 0) <$> results)
       + foldr Z.add 0
           ((fun r => if bool_decide (g_UsingGiftCardFromCollectiveId r = Some from
                                      /\ from <> 0 /\ g_CollectiveId r = to)
                      then g_totalAmount r else 0) <$> results)).
  { intros from to. induction results as [|r results IH] using rev_ind; [done|].
    rewrite foldl_app. cbn [foldl]. rewrite add_donation_lookup, IH.
    rewrite !fmap_app, !foldr_app. cbn [fmap list_fmap foldr].
    rewrite (Hsum (_ + 0)), (Hsum (_ + 0)). lia. }
  split; [|split].
  - unfold totalAmountDonatedFromTo. by rewrite length_fmap.
  - intros i key Hkey. unfold totalAmountDonatedFromTo. cbv zeta.
    rewrite list_lookup_fmap, Hkey. cbn [fmap option_fmap option_map]. by rewrite Hat.
  - intros from to amount Hnz. unfold totalAmountDonatedFromTo. cbv zeta.
    cbn [fmap list_fmap FromCollectiveId CollectiveId foldl].
    rewrite add_donation_lookup. cbn [g_FromCollectiveId g_CollectiveId g_totalAmount
                                      g_UsingGiftCardFromCollectiveId].
    rewrite !bool_decide_eq_true_2 by done. rewrite lookup_empty. simpl. f_equal. lia.
Qed.

(** *** [Tier.availableQuantity] *)

Lemma SUM_Z_default (xs : list (option Z)) :
  default 0 (SUM_Z xs) = foldr Z.add 0 (default 0 <$> xs).
Proof.
  assert (Hvalues : foldr Z.add 0 (omap (fun x => x) xs) = foldr Z.add 0 (default 0 <$> xs)).
  { induction xs as [|[x|] xs IH]; [done| |].
    - change (foldr Z.add 0 (omap (fun x => x) (Some x :: xs)))
        with (x + foldr Z.add 0 (omap (fun x => x) xs)).
      rewrite IH. done.
    - change (foldr Z.add 0 (omap (fun x => x) (None :: xs)))
        with (foldr Z.add 0 (omap (fun x => x) xs)).
      rewrite IH. done. }
  unfold SUM_Z. rewrite <- Hvalues. by destruct (omap _ xs).
Qed.

(** The quantity sold of a tier: the orders joined to it, a missing
    quantity counting for nothing. *)
Lemma group_sum excluded (TierOrders : list TierOrderRow) (t : Z * Z) :
  default 0 (SUM_Z ((fun r : (Z * Z) * option TierOrderRow => r.2 ≫= to_quantity)
                      <$> Sql.LEFT_JOIN (join_on excluded) [t] TierOrders))
  = foldr Z.add 0 ((fun o => default 0 (to_quantity o))
                     <$> List.filter (join_on excluded t) TierOrders).
Proof.
  rewrite SUM_Z_default. unfold Sql.LEFT_JOIN. cbn [flat_map]. rewrite app_nil_r.
  destruct (List.filter (join_on excluded t) TierOrders) as [|o os]; [done|].
  generalize (o :: os). intros l. induction l as [|x l IH]; [done|].
  cbn [List.map fmap list_fmap foldr] in *. by rewrite IH.
Qed.

Lemma available_rows_elem excluded Tiers TierOrders (tierIds : list Z) (id q : Z) :
  (id, q) ∈ available_rows excluded Tiers TierOrders tierIds <->
  id ∈ tierIds /\
  exists maxQuantity,
    Tiers !! id = Some (Some maxQuantity) /\
    q = maxQuantity
        - foldr Z.add 0 ((fun o => default 0 (to_quantity o))
                           <$> List.filter (join_on excluded (id, maxQuantity)) TierOrders).
Proof.
  unfold available_rows. rewrite list_elem_of_omap. split.
  - intros ([id' maxQuantity] & Hin & Hrow). apply elem_of_map_to_list in Hin.
    cbn [fst snd] in Hrow. destruct maxQuantity as [maxQuantity|]; [|done].
    case_bool_decide as Hbatch; [|done]. cbv zeta in Hrow. injection Hrow as -> <-.
    split; [done|]. exists maxQuantity. split; [done|].
    f_equal. apply group_sum.
  - intros (Hbatch & maxQuantity & Htier & ->). exists (id, Some maxQuantity).
    split; [by apply elem_of_map_to_list|]. cbn [fst snd].
    rewrite bool_decide_eq_true_2 by done. cbv zeta. by rewrite group_sum.
Qed.

(** X17: [Tier.availableQuantity] is what is left of a tier, never less
    than zero.  One entry per requested tier, in key order: [null] for a
    tier that does not exist or has no [maxQuantity]; otherwise
    [maxQuantity] minus the quantities of the tier's orders that are
    processed and whose status is not among the excluded ones, and [0] when
    this is not positive. *)
Theorem X17_available_quantity_is_what_is_left
    (excluded : list string) (Tiers : gmap Z (option Z)) (TierOrders : list TierOrderRow)
    (tierIds : list Z) :
  length (availableQuantity excluded Tiers TierOrders tierIds) = length tierIds /\
  (forall i id, tierIds !! i = Some id ->
     availableQuantity excluded Tiers TierOrders tierIds !! i
     = Some match Tiers !! id with
            | Some (Some maxQuantity) =>
                Some (Z.max 0
                        (maxQuantity
                         - foldr Z.add 0
                             ((fun o => default 0 (to_quantity o))
                                <$> List.filter (join_on excluded (id, maxQuantity))
                                      TierOrders)))
            | _ => None
            end) /\
  (forall i quantity,
     availableQuantity excluded Tiers TierOrders tierIds !! i = Some (Some quantity) ->
     0 <= quantity).
Proof.
  split; [|split].
  - unfold availableQuantity. by rewrite length_fmap.
  - intros i id Hid. unfold availableQuantity. cbv zeta.
    rewrite list_lookup_fmap, Hid. cbn [fmap option_fmap option_map]. f_equal.
    assert (Hbatch : id ∈ tierIds) by (by eapply list_elem_of_lookup_2).
    destruct (List.find _ _) as [[id' q]|] eqn:Hfind.
    + apply find_some in Hfind as [Hin Hsame]. cbn [fst] in Hsame.
      apply bool_decide_eq_true in Hsame as ->.
      apply list_elem_of_In, available_rows_elem in Hin
        as (_ & maxQuantity & -> & ->). cbn [snd]. f_equal.
      case_bool_decide; lia.
    + destruct (Tiers !! id) as [[maxQuantity|]|] eqn:Htier; [|done|done].
      exfalso.
      assert (Hin : (id, maxQuantity
                     - foldr Z.add 0 ((fun o => default 0 (to_quantity o))
                         <$> List.filter (join_on excluded (id, maxQuantity)) TierOrders))
                    ∈ available_rows excluded Tiers TierOrders tierIds).
      { apply available_rows_elem. split; [done|]. by exists maxQuantity. }
      apply list_elem_of_In in Hin. apply (find_none _ _ Hfind) in Hin.
      cbn [fst] in Hin. by apply bool_decide_eq_false in Hin.
  - intros i quantity. unfold availableQuantity. cbv zeta.
    rewrite list_lookup_fmap. destruct (tierIds !! i) as [id|]; [|done].
    cbn [fmap option_fmap option_map]. destruct (List.find _ _) as [[id' q]|]; [|done].
    intros [= <-]. cbn [snd]. case_bool_decide; lia.
Qed.

(** *** [Collective.stats.activeRecurringContributions] *)

Lemma groupBy_lookup (rows : list RecurringRow) (collectiveId : Z) :
  default [] (groupBy rows !! prop collectiveId)
  = List.filter (fun row => bool_decide (rc_CollectiveId row = collectiveId)) rows.
Proof.
  induction rows as [|row rows IH] using rev_ind; [done|].
  unfold groupBy in *. rewrite foldl_app, List.filter_app. cbn [foldl List.filter].
  destruct (decide (rc_CollectiveId row = collectiveId)) as [->|Hne].
  - rewrite bool_decide_eq_true_2 by done. rewrite lookup_insert_eq. cbn [default].
    by rewrite IH.
  - rewrite bool_decide_eq_false_2 by done. rewrite lookup_insert_ne, app_nil_r; [done|].
    intros Heq. by apply prop_inj in Heq.
Qed.

Lemma add_results_resolves getFxRate (stats : RecurringStats) (results : list RecurringRow) :
  (forall from to, exists fxRate, getFxRate from to = Resolved fxRate) ->
  exists stats', add_results getFxRate stats results = Resolved stats' /\
                 rs_CollectiveId stats' = rs_CollectiveId stats.
Proof.
  intros Hrates. revert stats. induction results as [|result rest IH]; intros stats.
  - by exists stats.
  - cbn [add_results]. unfold add_result.
    destruct (Hrates (rc_currency result)
                (default "" (if truthy (rs_currency stats) then rs_currency stats
                             else Some (rc_currency result)))) as [fxRate ->].
    match goal with |- context [add_results _ ?s rest] => destruct (IH s) as (s' & -> & Hid) end.
    exists s'. split; [done|]. rewrite Hid. by case_bool_decide.
Qed.

Lemma add_results_one_currency getFxRate (currency : string) (stats : RecurringStats)
    (results : list RecurringRow) :
  currency <> "" -> getFxRate currency currency = Resolved 1%Q ->
  (forall result, result ∈ results -> rc_currency result = currency) ->
  rs_currency stats = None \/ rs_currency stats = Some currency ->
  exists stats',
    add_results getFxRate stats results = Resolved stats' /\
    (monthly stats'
     == monthly stats
        + inject_Z (foldr Z.add 0%Z
            ((fun r => if bool_decide (rc_interval r = Some "month") then rc_total r else 0%Z)
               <$> results)))%Q /\
    (yearly stats'
     == yearly stats
        + inject_Z (foldr Z.add 0%Z
            ((fun r => if bool_decide (rc_interval r = Some "month") then 0%Z else rc_total r)
               <$> results)))%Q /\
    rs_currency stats' = match results with [] => rs_currency stats | _ => Some currency end.
Proof.
  intros Hne Hrate. revert stats. induction results as [|result rest IH];
    intros stats Hsame Hcur.
  - exists stats. split; [done|]. cbn [fmap list_fmap foldr].
    change (inject_Z 0) with 0%Q. split; [lra|]. split; [lra|done].
  - assert (Hresult : rc_currency result = currency) by (apply Hsame; by left).
    assert (Hnew : (if truthy (rs_currency stats) then rs_currency stats
                    else Some (rc_currency result)) = Some currency).
    { destruct Hcur as [-> | ->]; [by rewrite Hresult|].
      destruct currency; [done | done]. }
    cbn [add_results]. unfold add_result. rewrite Hnew, Hresult.
    change (default "" (Some currency)) with currency. rewrite Hrate.
    match goal with |- context [add_results _ ?s rest] =>
      destruct (IH s) as (s' & -> & Hm & Hy & Hc) end.
    { intros r Hr. apply Hsame. by right. }
    { right. by case_bool_decide. }
    exists s'. split; [done|]. cbn [fmap list_fmap foldr].
    rewrite inject_Z_plus, inject_Z_plus.
    case_bool_decide; cbn [monthly yearly rs_currency] in *;
      change (inject_Z 0) with 0%Q.
    + split; [lra|]. split; [lra|]. rewrite Hc. by destruct rest.
    + split; [lra|]. split; [lra|]. rewrite Hc. by destruct rest.
Qed.

Lemma fulfilled_resolved {A B} (f : A -> Promise B) (g : A -> B) (l : list A) :
  (forall x, x ∈ l -> f x = Resolved (g x)) ->
  rejections (f <$> l) = [] /\ fulfilled (f <$> l) = g <$> l.
Proof.
  induction l as [|x l IH]; intros Hall; [done|].
  cbn [fmap list_fmap rejections fulfilled]. rewrite (Hall x) by (by left).
  destruct IH as [Hr Hf]; [intros y Hy; apply Hall; by right|].
  cbn [fmap list_fmap] in *. by rewrite Hr, Hf.
Qed.

(** X18: [activeRecurringContributions] adds up the active recurring
    contributions of each collective.  When every exchange rate is
    delivered the batch resolves with one statistics object per id, in the
    order of the ids and carrying the id; a collective without rows has no
    currency and nothing monthly or yearly.  For a collective whose rows are
    all in one currency, the rate of that currency to itself being 1,
    [monthly] is the sum of the totals of the rows of interval ['month'],
    [yearly] the sum of the totals of all the other rows, and the currency
    is that of the rows. *)
Theorem X18_recurring_contributions_add_up
    (getFxRate : string -> string -> Promise Q) (race : list Error -> nat)
    (ids : list Z) (rows : list RecurringRow) :
  (forall from to, exists fxRate, getFxRate from to = Resolved fxRate) ->
  exists stats,
    activeRecurringContributions getFxRate race ids rows = Resolved stats /\
    length stats = length ids /\
    (forall i id, ids !! i = Some id ->
     exists s,
       stats !! i = Some s /\ rs_CollectiveId s = id /\
       ((forall row, row ∈ rows -> rc_CollectiveId row <> id) ->
        s = {| rs_CollectiveId := id; monthly := 0; yearly := 0; rs_currency := None |}) /\
       (forall currency,
          currency <> "" -> getFxRate currency currency = Resolved 1%Q ->
          (forall row, row ∈ rows -> rc_CollectiveId row = id -> rc_currency row = currency) ->
          (monthly s
           == inject_Z (foldr Z.add 0%Z
                ((fun r => if bool_decide (rc_interval r = Some "month")
                           then rc_total r else 0%Z)
                   <$> List.filter (fun row => bool_decide (rc_CollectiveId row = id)) rows)))%Q
          /\
          (yearly s
           == inject_Z (foldr Z.add 0%Z
                ((fun r => if bool_decide (rc_interval r = Some "month")
                           then 0%Z else rc_total r)
                   <$> List.filter (fun row => bool_decide (rc_CollectiveId row = id)) rows)))%Q
          /\
          ((exists row, row ∈ rows /\ rc_CollectiveId row = id) ->
           rs_currency s = Some currency))).
Proof.
  intros Hrates.
  assert (Hall : forall id, exists s,
            collective_stats getFxRate (groupBy rows) id = Resolved s /\
            rs_CollectiveId s = id).
  { intros id. unfold collective_stats. by apply add_results_resolves. }
  pose (g := fun id => match collective_stats getFxRate (groupBy rows) id with
                       | Resolved s => s
                       | Rejected _ => {| rs_CollectiveId := id; monthly := 0; yearly := 0;
                                          rs_currency := None |}
                       end).
  assert (Hg : forall id, collective_stats getFxRate (groupBy rows) id = Resolved (g id)).
  { intros id. unfold g. by destruct (Hall id) as (s & -> & _). }
  destruct (fulfilled_resolved (collective_stats getFxRate (groupBy rows)) g ids)
    as [Hrej Hful]; [by intros|].
  exists (g <$> ids). split; [|split].
  - unfold activeRecurringContributions. cbv zeta. by rewrite Hrej, Hful.
  - by rewrite length_fmap.
  - intros i id Hid. exists (g id). split; [by rewrite list_lookup_fmap, Hid|].
    destruct (Hall id) as (s & Hs & Hsid). rewrite Hg in Hs. injection Hs as <-.
    split; [done|]. split.
    + intros Hnone. specialize (Hg id). unfold collective_stats in Hg.
      rewrite groupBy_lookup, filter_none in Hg.
      * cbn [add_results] in Hg. by injection Hg as <-.
      * intros row Hrow. apply bool_decide_eq_false_2, Hnone. by apply list_elem_of_In.
    + intros currency Hne Hrate Hsame. specialize (Hg id). unfold collective_stats in Hg.
      rewrite groupBy_lookup in Hg.
      destruct (add_results_one_currency getFxRate currency
                  {| rs_CollectiveId := id; monthly := 0; yearly := 0; rs_currency := None |}
                  (List.filter (fun row => bool_decide (rc_CollectiveId row = id)) rows)
                  Hne Hrate) as (s' & Hs' & Hm & Hy & Hc).
      { intros row Hrow. apply list_elem_of_In, filter_In in Hrow as [Hrow Hid'].
        apply bool_decide_eq_true in Hid'. apply Hsame; [by apply list_elem_of_In | done]. }
      { by left. }
      rewrite Hs' in Hg. injection Hg as <-. cbn [monthly yearly rs_currency] in *.
      split; [lra|]. split; [lra|].
      intros (row & Hrow & Hrid). rewrite Hc.
      destruct (List.filter _ rows) as [|r rs] eqn:Hfilter; [|done].
      exfalso. assert (Hin : In row (List.filter
                  (fun row => bool_decide (rc_CollectiveId row = id)) rows)).
      { apply filter_In. split; [by apply list_elem_of_In | by apply bool_decide_eq_true_2]. }
      by rewrite Hfilter in Hin.
Qed.

End LoaderFacts.

(** ** Concrete runs *)

Lemma sample_violation :
  violated_at sample_statFn sample_args [rule_day; rule_month] 0.
Proof. exists rule_day, [VString "10.0.0.1"; VString "1 day"], sample_stats. by vm_compute. Defined.

Lemma quiet_passes k :
  (k < length [rule_day; rule_month])%nat ->
  passed_at quiet_statFn sample_args [rule_day; rule_month] k.
Proof.
  intros Hk. destruct k as [|[|k]]; [| |simpl in Hk; lia].
  - exists rule_day, [VString "10.0.0.1"; VString "1 day"], quiet_stats. by vm_compute.
  - exists rule_month, [VString "10.0.0.1"; VString "1 day"; VString "1 month"], quiet_stats.
    by vm_compute.
Defined.

Lemma empty_world_not_blocked enforce : not_blocked enforce default_options empty_world.
Proof. right. split; [done|]. intros asset [= <-]. by vm_compute. Defined.


Lemma C3_suspended_asset_rejects_without_stats_witness :
  validateStat true sample_parse sample_toString sample_race
    sample_statFn sample_args "limits" "Fraud" default_options suspended_world
  = (Rejected (SuspendedError sample_asset), emit (StoreLookup sample_asset) suspended_world) /\
  exists e w',
    orderFraudProtection true "limits" "limits" "limits" "limits"
      sample_parse sample_toString sample_race empty_db 0 (fun _ => 0) (fun _ _ => false)
      sample_request sample_order suspended_world = (Rejected e, w').
Proof.
  destruct (C3_suspended_asset_rejects_without_stats true "limits" "limits" "limits" "limits"
              sample_parse sample_toString sample_race empty_db 0 (fun _ => 0)
              (fun _ _ => false) eq_refl) as (Hcheck & Horder).
  split.
  - apply (Hcheck _ _ _ _ default_options sample_asset "suspended earlier");
      [reflexivity | reflexivity | by vm_compute].
  - apply (Horder sample_request sample_order (CheckIP "10.0.0.1") sample_asset
             "suspended earlier" suspended_world);
      [vm_compute; left | reflexivity | by vm_compute].
Defined.

(** With enforcement enabled, asset parameters supplied and the asset in
    the store, a check that also has a custom pre-check queries the
    statistics and resolves: the custom pre-check runs instead of the store
    lookup. *)
Lemma C3_counterexample :
  assetParams pre_checked_options = Some sample_asset /\
  suspended suspended_world !! asset_key sample_asset = Some "suspended earlier" /\
  validateStat true sample_parse sample_toString sample_race
    quiet_statFn sample_args "limits" "Fraud" pre_checked_options suspended_world
  = (Resolved tt,
     emits [ StatQuery [VString "10.0.0.1"; VString "1 day"];
             StatQuery [VString "10.0.0.1"; VString "1 day"; VString "1 month"] ]
           suspended_world) /\
  ~ (exists e w',
        validateStat true sample_parse sample_toString sample_race
          quiet_statFn sample_args "limits" "Fraud" pre_checked_options suspended_world
        = (Rejected e, w')).
Proof.
  split; [reflexivity|]. split; [by vm_compute|].
  assert (Hrun : validateStat true sample_parse sample_toString sample_race
                   quiet_statFn sample_args "limits" "Fraud" pre_checked_options
                   suspended_world
                 = (Resolved tt,
                    emits [ StatQuery [VString "10.0.0.1"; VString "1 day"];
                            StatQuery [VString "10.0.0.1"; VString "1 day";
                                       VString "1 month"] ]
                          suspended_world)) by (by vm_compute).
  split; [exact Hrun|]. intros (e & w' & Hrejected). rewrite Hrun in Hrejected. discriminate.
Qed.

Lemma empty_world_not_blocked_custom enforce handler :
  not_blocked enforce (custom_options handler) empty_world.
Proof. right. split; [done|]. intros asset [= <-]. by vm_compute. Defined.

Lemma faulty_world_not_blocked enforce : not_blocked enforce default_options faulty_world.
Proof. right. split; [done|]. intros asset [= <-]. by vm_compute. Defined.

Lemma sample_parse_total str : is_Some (sample_parse str).
Proof.
  unfold sample_parse.
  destruct (decide (str = "[]")); [eauto|]. destruct (decide (str = "always")); eauto.
Defined.

Lemma C4_violation_recorded_blocking_only_when_enforced_witness :
  (exists error,
      validateStat true sample_parse sample_toString sample_race
        sample_statFn sample_args "limits" "Fraud" default_options empty_world
      = (Rejected error,
         store_insert sample_asset (message error)
           (emits [ StoreLookup sample_asset;
                    StatQuery [VString "10.0.0.1"; VString "1 day"];
                    StatQuery [VString "10.0.0.1"; VString "1 day"; VString "1 month"];
                    LogWarn (message error);
                    StoreCreate (Some sample_asset) (message error) ] empty_world))) /\
  (exists msg options,
      run_check false "always" "always" "always" "always" sample_parse sample_toString
        sample_race empty_db 0 (fun _ => 0) (fun _ _ => false) (CheckIP "10.0.0.1")
      = validateStat false sample_parse sample_toString sample_race
          (spread_getIpStats empty_db 0 (fun _ => 0) (fun _ _ => false))
          sample_args "always" msg options /\
      assetParams options = Some sample_asset) /\
  (exists w' reason,
      orderFraudProtection false "always" "always" "always" "always"
        sample_parse sample_toString sample_race empty_db 0 (fun _ => 0) (fun _ _ => false)
        sample_request sample_order empty_world = (Resolved tt, w') /\
      LogWarn reason ∈ trace w' /\ StoreCreate (Some sample_asset) reason ∈ trace w' /\
      is_Some (suspended w' !! asset_key sample_asset)).
Proof.
  split; [|split].
  - eexists.
    apply (proj1 (C4_violation_recorded_blocking_only_when_enforced true
                    "limits" "limits" "limits" "limits" sample_parse sample_toString
                    sample_race empty_db 0 (fun _ => 0) (fun _ _ => false))
             sample_statFn sample_args "limits" "Fraud" default_options
             [rule_day; rule_month] sample_asset empty_world 0%nat).
    + reflexivity.
    + apply empty_world_not_blocked.
    + apply sample_violation.
    + reflexivity.
  - destruct (proj1 (proj2 (C4_violation_recorded_blocking_only_when_enforced false
                    "always" "always" "always" "always" sample_parse sample_toString
                    sample_race empty_db 0 (fun _ => 0) (fun _ _ => false)))
                (CheckIP "10.0.0.1") sample_asset
                (spread_getIpStats empty_db 0 (fun _ => 0) (fun _ _ => false))
                sample_args "always" eq_refl eq_refl)
      as (msg & options & Hrun & _ & Hasset & _).
    by exists msg, options.
  - destruct (proj2 (proj2 (C4_violation_recorded_blocking_only_when_enforced false
                    "always" "always" "always" "always" sample_parse sample_toString
                    sample_race empty_db 0 (fun _ => 0) (fun _ _ => false)))
                eq_refl (fun str _ => sample_parse_total str)
                sample_request sample_order empty_world)
      as (w' & Hrun & Hrecorded).
    destruct (Hrecorded (CheckIP "10.0.0.1") sample_asset
                (spread_getIpStats empty_db 0 (fun _ => 0) (fun _ _ => false))
                sample_args "always" [rule_always] 0%nat)
      as (reason & Hwarn & Hcreate & Hstore).
    + vm_compute. left.
    + reflexivity.
    + reflexivity.
    + reflexivity.
    + exists rule_always, [VString "10.0.0.1"; VNull].
      eexists. by vm_compute.
    + exists w', reason. split; [done|]. split; [done|]. split; [done|]. by apply Hstore.
Defined.

Lemma C5_custom_handler_replaces_default_witness :
  exists error,
    validateStat false sample_parse sample_toString sample_race
      sample_statFn sample_args "limits" "Fraud" (custom_options sample_handler) empty_world
    = (Resolved tt,
       emits [ StatQuery [VString "10.0.0.1"; VString "1 day"];
               StatQuery [VString "10.0.0.1"; VString "1 day"; VString "1 month"];
               LogWarn (message error);
               LogWarn "handled" ] empty_world) /\
    suspended (validateStat false sample_parse sample_toString sample_race
                 sample_statFn sample_args "limits" "Fraud"
                 (custom_options sample_handler) empty_world).2 = suspended empty_world.
Proof.
  eexists.
  destruct (C5_custom_handler_replaces_default false sample_parse sample_toString sample_race
              sample_statFn sample_args "limits" "Fraud" (custom_options sample_handler)
              sample_handler [rule_day; rule_month] empty_world 0%nat
              eq_refl (or_introl eq_refl) sample_violation eq_refl)
    as (Hrun & _ & _ & Hstore).
  split.
  - exact Hrun.
  - apply Hstore. reflexivity.
Defined.

Lemma C6_write_failure_is_logged_not_raised_witness :
  (exists error,
      validateStat true sample_parse sample_toString sample_race
        sample_statFn sample_args "limits" "Fraud" (custom_options failing_handler) empty_world
      = (Rejected error,
         emits [ StoreLookup sample_asset;
                 StatQuery [VString "10.0.0.1"; VString "1 day"];
                 StatQuery [VString "10.0.0.1"; VString "1 day"; VString "1 month"];
                 LogWarn (message error);
                 LogError (OtherError "Error" "handler failed") ] empty_world) /\
      exists m a l, error = ValidationFailed m a l) /\
  (exists error,
      validateStat true sample_parse sample_toString sample_race
        sample_statFn sample_args "limits" "Fraud" default_options faulty_world
      = (Rejected error,
         emits [ StoreLookup sample_asset;
                 StatQuery [VString "10.0.0.1"; VString "1 day"];
                 StatQuery [VString "10.0.0.1"; VString "1 day"; VString "1 month"];
                 LogWarn (message error);
                 StoreCreate (Some sample_asset) (message error);
                 LogError write_error ] faulty_world) /\
      exists m a l, error = ValidationFailed m a l).
Proof.
  split.
  - eexists. split.
    + apply (proj1 (C6_write_failure_is_logged_not_raised true sample_parse sample_toString
                      sample_race sample_statFn sample_args "limits" "Fraud"
                      (custom_options failing_handler) [rule_day; rule_month] empty_world
                      0%nat (OtherError "Error" "handler failed")
                      eq_refl (empty_world_not_blocked_custom _ _) sample_violation)).
      reflexivity.
    + by eexists _, _, _.
  - eexists. split.
    + apply (proj2 (C6_write_failure_is_logged_not_raised true sample_parse sample_toString
                      sample_race sample_statFn sample_args "limits" "Fraud"
                      default_options [rule_day; rule_month] faulty_world
                      0%nat write_error
                      eq_refl (faulty_world_not_blocked _) sample_violation));
        reflexivity.
    + by eexists _, _, _.
Defined.



Lemma C10_no_pre_check_without_enforcement_witness :
  entry false pre_checked_options suspended_world = (Resolved tt, suspended_world) /\
  validateStat false sample_parse sample_toString sample_race
    quiet_statFn sample_args "limits" "Fraud" default_options suspended_world
  = (Resolved tt,
     emits [ StatQuery [VString "10.0.0.1"; VString "1 day"];
             StatQuery [VString "10.0.0.1"; VString "1 day"; VString "1 month"] ]
           suspended_world) /\
  (validateStat false sample_parse sample_toString sample_race
     sample_statFn sample_args "limits" "Fraud" default_options suspended_world).1
  = Resolved tt.
Proof.
  destruct (C10_no_pre_check_without_enforcement false sample_parse sample_toString
              sample_race eq_refl) as (Hentry & Hpass & Hany).
  split; [|split].
  - apply Hentry.
  - apply (Hpass quiet_statFn sample_args "limits" "Fraud" default_options
             [rule_day; rule_month] suspended_world); [reflexivity | apply quiet_passes].
  - apply (Hany sample_statFn sample_args "limits" "Fraud" default_options
             [rule_day; rule_month] suspended_world). reflexivity.
Defined.

Lemma X1_rule_with_any_number_of_limits_witness :
  fail [] sample_stats = true /\
  (fail [5%Q] sample_stats = true <-> (5 <= numberOfOrders sample_stats)%Q) /\
  fail [5; 0.3; 0.3; 0]%Q sample_stats = false.
Proof.
  destruct (X1_rule_with_any_number_of_limits [5; 0.3; 0.3]%Q sample_stats)
    as (_ & Hnone & Hone & Hfour).
  split; [exact Hnone|]. split; [apply Hone | apply Hfour].
Defined.

Lemma X2_violation_is_monotone_witness :
  fail [1; 0.1; 0.1]%Q {| errorRate := 0.6; numberOfOrders := 12; paymentMethodRate := 1 |}
  = true.
Proof.
  apply (X2_violation_is_monotone [5; 0.3; 0.3]%Q [1; 0.1; 0.1]%Q sample_stats).
  - reflexivity.
  - repeat constructor; unfold Qle; simpl; lia.
  - unfold Qle; simpl; lia.
  - unfold Qle; simpl; lia.
  - unfold Qle; simpl; lia.
Defined.

Lemma X3_failed_query_is_handled_as_violation_witness :
  exists error,
    (validateStat true sample_parse sample_toString sample_race failing_statFn sample_args
       "limits" "Fraud" default_options empty_world).1 = Rejected error /\
    suspended (validateStat true sample_parse sample_toString sample_race failing_statFn
                 sample_args "limits" "Fraud" default_options empty_world).2
      !! asset_key sample_asset = Some (message error).
Proof.
  destruct (X3_failed_query_is_handled_as_violation true sample_parse sample_toString
              sample_race failing_statFn sample_args "limits" "Fraud" default_options
              [rule_day; rule_month] empty_world 0 rule_day
              [VString "10.0.0.1"; VString "1 day"] query_error)
    as (Hrun & Hstore & _).
  - reflexivity.
  - apply empty_world_not_blocked.
  - reflexivity.
  - reflexivity.
  - reflexivity.
  - eexists. split.
    + rewrite Hrun. reflexivity.
    + apply Hstore; reflexivity.
Defined.

Lemma X4_unreadable_limit_list_blocks_the_order_witness :
  (exists e, validateStat false unreadable_parse sample_toString sample_race sample_statFn
               sample_args "limits" "Fraud" default_options empty_world
             = (Rejected e, empty_world)) /\
  (exists e w', orderFraudProtection false "user" "card" "ip" "email" unreadable_parse
                  sample_toString sample_race empty_db 0 (fun _ => 0) (fun _ _ => true)
                  sample_request sample_order empty_world
                = (Rejected e, w')).
Proof.
  destruct (X4_unreadable_limit_list_blocks_the_order false "user" "card" "ip" "email"
              unreadable_parse sample_toString sample_race empty_db 0 (fun _ => 0)
              (fun _ _ => true) "ip" eq_refl) as [Hcheck Horder].
  split.
  - destruct (X4_unreadable_limit_list_blocks_the_order false "user" "card" "ip" "email"
                unreadable_parse sample_toString sample_race empty_db 0 (fun _ => 0)
                (fun _ _ => true) "limits" eq_refl) as [Hlimits _].
    apply Hlimits. reflexivity.
  - apply (Horder sample_request sample_order (CheckIP "10.0.0.1")
             (spread_getIpStats empty_db 0 (fun _ => 0) (fun _ _ => true))
             [VString "10.0.0.1"]).
    + vm_compute. constructor.
    + reflexivity.
Defined.

Lemma X5_every_selected_check_runs_witness :
  exists before later,
    trace (orderFraudProtection true "user" "card" "ip" "email" sample_parse
             sample_toString sample_race empty_db 0 (fun _ => 0) (fun _ _ => true)
             sample_request sample_order suspended_world).2
    = trace suspended_world ++ before
      ++ StoreLookup {| type := EMAIL_ADDRESS; fingerprint := "test@example.com" |} :: later.
Proof.
  apply (X5_every_selected_check_runs true "user" "card" "ip" "email" sample_parse
           sample_toString sample_race empty_db 0 (fun _ => 0) (fun _ _ => true)
           sample_request sample_order suspended_world eq_refl
           (CheckEmail "Test@Example.com")).
  - vm_compute. constructor. constructor.
  - reflexivity.
Defined.

Lemma X6_order_without_identity_is_not_screened_witness :
  orderFraudProtection true "user" "card" "ip" "email" sample_parse sample_toString
    sample_race empty_db 0 (fun _ => 0) (fun _ _ => true)
    anonymous_request bare_order suspended_world
  = (Resolved tt, suspended_world).
Proof.
  destruct (X6_order_without_identity_is_not_screened true "user" "card" "ip" "email"
              sample_parse sample_toString sample_race empty_db 0 (fun _ => 0)
              (fun _ _ => true) anonymous_request bare_order) as [_ Hrun].
  apply Hrun. reflexivity.
Defined.

Lemma X7_statistics_are_counts_and_rates_witness :
  exists row,
    BASE_STATS_QUERY [(paid_order, Some card_row)] = [row] /\
    (0 < paymentMethodRate row)%Q /\ (paymentMethodRate row == 1)%Q.
Proof.
  destruct (X7_statistics_are_counts_and_rates [(paid_order, Some card_row)])
    as (row & Hrow & _ & _ & _ & Hpos & Hone).
  exists row. split; [exact Hrow|]. split; [apply Hpos; discriminate | apply Hone; reflexivity].
Defined.

Lemma X9_deleted_and_unpaid_orders_are_not_counted_witness :
  getUserStats {| Orders := [paid_order; deleted_order]; PaymentMethods := [card_row];
                  Users := [sample_user_row] |} 0 (fun _ => 0) {| id := 7 |} None
  = getUserStats {| Orders := [paid_order]; PaymentMethods := [card_row];
                    Users := [sample_user_row] |} 0 (fun _ => 0) {| id := 7 |} None.
Proof.
  destruct (X9_deleted_and_unpaid_orders_are_not_counted 0 (fun _ => 0) (fun _ _ => true)
              [paid_order] [] deleted_order [card_row] [sample_user_row] None)
    as [Huser _].
  - left. discriminate.
  - apply Huser.
Defined.

Lemma X10_email_statistics_ignore_letter_case_witness :
  getEmailStats {| Orders := [paid_order]; PaymentMethods := [card_row];
                   Users := [sample_user_row] |}
    0 (fun _ => 0) String.eqb "Test@Example.com" None
  = getEmailStats {| Orders := [paid_order]; PaymentMethods := [card_row];
                     Users := [{| u_id := 7; u_email := Some "test@example.com" |}] |}
      0 (fun _ => 0) String.eqb "TEST@example.com" None.
Proof.
  apply (X10_email_statistics_ignore_letter_case 0 (fun _ => 0) String.eqb
           [paid_order] [card_row] [sample_user_row] toLower).
  - reflexivity.
  - apply toLower_idempotent.
Defined.

Lemma X11_without_enforcement_only_an_unreadable_list_blocks_witness :
  exists w', orderFraudProtection false "user" "card" "ip" "email" sample_parse
               sample_toString sample_race empty_db 0 (fun _ => 0) (fun _ _ => true)
               sample_request sample_order faulty_world
             = (Resolved tt, w').
Proof.
  destruct (X11_without_enforcement_only_an_unreadable_list_blocks false "user" "card" "ip"
              "email" sample_parse sample_toString sample_race empty_db 0 (fun _ => 0)
              (fun _ _ => true) sample_request sample_order faulty_world eq_refl)
    as [_ [_ Hresolves]].
  apply Hresolves. intros c statFn args str _ _. apply sample_parse_total.
Defined.

Lemma X12_card_statistics_ignore_brand_and_funding_witness :
  getCreditCardStats {| Orders := [paid_order]; PaymentMethods := [card_row]; Users := [] |}
    0 (fun _ => 0) "4242" sample_card None
  = getCreditCardStats {| Orders := [paid_order]; PaymentMethods := [card_row]; Users := [] |}
      0 (fun _ => 0) "4242"
      {| expYear := 2030; expMonth := 3; brand := Some "mastercard"; cc_fingerprint := None;
         funding := Some "credit"; country := Some "US" |} None /\
  card_fingerprint "4242" sample_card
  <> card_fingerprint "4242"
       {| expYear := 2030; expMonth := 3; brand := Some "mastercard"; cc_fingerprint := None;
          funding := Some "credit"; country := Some "US" |}.
Proof.
  destruct (X12_card_statistics_ignore_brand_and_funding 0 (fun _ => 0)
              {| Orders := [paid_order]; PaymentMethods := [card_row]; Users := [] |}
              "4242" sample_card
              {| expYear := 2030; expMonth := 3; brand := Some "mastercard";
                 cc_fingerprint := None; funding := Some "credit"; country := Some "US" |}
              None eq_refl eq_refl eq_refl) as [Hstats Hprint].
  split; [exact Hstats|]. apply Hprint; [reflexivity | reflexivity | reflexivity | discriminate].
Defined.

Lemma X13_host_results_follow_the_keys_witness :
  Loaders.host [2; 1; 3] sample_host_rows !! 1%nat = Some (Some "opensource") /\
  Loaders.host [2; 1; 3] sample_host_rows !! 2%nat = Some None.
Proof.
  destruct (X13_host_results_follow_the_keys [2; 1; 3] sample_host_rows)
    as (_ & _ & Hnone & Hrow).
  split.
  - apply (Hrow) with (r := {| Loaders.hr_id := 1; Loaders.hr_host := Some "opensource" |}).
    + apply (bool_decide_unpack _). by vm_compute.
    + left.
    + reflexivity.
  - apply (Hnone 2%nat 3); [reflexivity|].
    intros r Hr. unfold sample_host_rows in Hr.
    apply elem_of_cons in Hr as [->|Hr]; [done|].
    apply elem_of_cons in Hr as [->|Hr]; [done|]. inversion Hr.
Defined.

Lemma sample_member_types (row : Loaders.MemberCount) :
  row ∈ sample_member_counts -> Loaders.mc_type row <> "all".
Proof.
  unfold sample_member_counts. intros Hrow.
  apply elem_of_cons in Hrow as [->|Hrow]; [done|].
  apply elem_of_cons in Hrow as [->|Hrow]; [done|].
  apply elem_of_cons in Hrow as [->|Hrow]; [done|]. inversion Hrow.
Defined.

Lemma X14_contributors_stats_sum_the_rows_witness :
  exists stats,
    Loaders.contributorsStats [1; 3] sample_member_counts !! 0%nat = Some stats /\
    stats !! "all" = Some 5 /\ stats !! "USER" = Some 3.
Proof.
  destruct (X14_contributors_stats_sum_the_rows [1; 3] sample_member_counts)
    as (_ & _ & Hsum).
  destruct (Hsum sample_member_types 0%nat 1 eq_refl) as (stats & Hstats & Hall & Htype).
  exists stats. split; [exact Hstats|]. split; [exact Hall|].
  apply (Htype) with
    (row := {| Loaders.mc_TierId := 1; Loaders.mc_type := "USER"; Loaders.mc_count := 3 |}).
  - apply (bool_decide_unpack _). by vm_compute.
  - left.
  - reflexivity.
Defined.

Lemma X15_direct_donations_follow_the_keys_witness :
  Loaders.directDonationsFromTo
    [ {| Loaders.FromCollectiveId := 1; Loaders.CollectiveId := 23 |};
      {| Loaders.FromCollectiveId := 12; Loaders.CollectiveId := 3 |} ]
    sample_donations !! 1%nat
  = Some 70.
Proof.
  destruct (X15_direct_donations_follow_the_keys
              [ {| Loaders.FromCollectiveId := 1; Loaders.CollectiveId := 23 |};
                {| Loaders.FromCollectiveId := 12; Loaders.CollectiveId := 3 |} ]
              sample_donations) as (_ & _ & _ & Hrow).
  apply (Hrow) with
    (key := {| Loaders.FromCollectiveId := 12; Loaders.CollectiveId := 3 |})
    (r := {| Loaders.d_FromCollectiveId := 12; Loaders.d_CollectiveId := 3;
             Loaders.d_totalAmount := Some 70 |}).
  - apply (bool_decide_unpack _). by vm_compute.
  - reflexivity.
  - right. left.
  - reflexivity.
  - reflexivity.
Defined.

Lemma X16_total_donated_adds_gift_cards_witness :
  Loaders.totalAmountDonatedFromTo
    [ {| Loaders.FromCollectiveId := 1; Loaders.CollectiveId := 2 |} ]
    [ {| Loaders.g_FromCollectiveId := 1; Loaders.g_UsingGiftCardFromCollectiveId := Some 1;
         Loaders.g_CollectiveId := 2; Loaders.g_totalAmount := 10 |} ]
  = [20].
Proof.
  destruct (X16_total_donated_adds_gift_cards [] []) as (_ & _ & Htwice).
  apply (Htwice 1 2 10). lia.
Defined.

Lemma X17_available_quantity_is_what_is_left_witness :
  Loaders.availableQuantity sample_excluded sample_tiers sample_tier_orders [1; 2; 3]
    !! 0%nat
  = Some (Some 7) /\
  Loaders.availableQuantity sample_excluded sample_tiers sample_tier_orders [1; 2; 3]
    !! 1%nat
  = Some None.
Proof.
  destruct (X17_available_quantity_is_what_is_left sample_excluded sample_tiers
              sample_tier_orders [1; 2; 3]) as (_ & Hat & _).
  split.
  - apply (Hat 0%nat 1). reflexivity.
  - apply (Hat 1%nat 2). reflexivity.
Defined.

Lemma X18_recurring_contributions_add_up_witness :
  exists stats,
    Loaders.activeRecurringContributions sample_getFxRate sample_race [1; 2] sample_recurring
    = Resolved stats /\
    length stats = 2%nat.
Proof.
  destruct (X18_recurring_contributions_add_up sample_getFxRate sample_race [1; 2]
              sample_recurring) as (stats & Hrun & Hlength & _).
  - intros from to. exists 1%Q. reflexivity.
  - exists stats. split; [exact Hrun | exact Hlength].
Defined.

